(** * The MELT exporter of fsoc (platform/melt/exporter.go)

    A shallow embedding of the exporter that turns the in-memory telemetry
    model (entities with metrics, logs and spans) into OTLP requests and
    hands them to the HTTP collaborator, followed by the properties of the
    specification that were checked against it; and the conversion of
    archive paths of the solution fork command.

    Conventions of the embedding:
    - a Go [string] and a Go [[]byte] are Rocq strings (sequences of bytes);
    - a fixed-width integer is a [Z] and every conversion writes out its
      wrap-around;
    - a [float64] is an IEEE 754 value of [SpecFloat];
    - a Go map is a reference into a heap of [gmap]s, the nil map being the
      reference [None]; [range] visits the entries in an order that the
      runtime picks, given by the class [MapRange];
    - a pointer to a struct that the code never compares with nil is the
      struct itself; a pointer that can be nil is an [option];
    - logging, the dump callback and the HTTP collaborator are recorded as
      events in a trace; a panic and [log.Fatalf] end the run. *)

From Stdlib Require Import ZArith String List.
From Stdlib Require Import Floats.SpecFloat.
From stdpp Require Import base option gmap strings list pretty.

Set Warnings "-register-all".

Open Scope string_scope.
Open Scope list_scope.
Open Scope Z_scope.

(** ** Go values *)

Definition bytes := string.
Definition float64 := spec_float.

Definition to_uint64 (z : Z) : Z := z mod 2 ^ 64.
Definition to_int64 (z : Z) : Z := (z + 2 ^ 63) mod 2 ^ 64 - 2 ^ 63.
Definition to_int32 (z : Z) : Z := (z + 2 ^ 31) mod 2 ^ 32 - 2 ^ 31.

(** The exact value of a finite float is [n / d] with [d] a power of two. *)
Definition float_num (s : bool) (m : positive) (e : Z) : Z :=
  (if s then -1 else 1) * (Z.pos m * 2 ^ Z.max e 0).
Definition float_den (e : Z) : Z := 2 ^ Z.max (- e) 0.

(** The conversion [int64(f)] of a [float64]: the fraction is discarded
    (truncation toward zero, [Z.quot]).  When the truncated value is not an
    int64, or [f] is an infinity or a NaN, Go leaves the result to the
    implementation: [out_of_range] stands for that choice. *)
Definition float64_to_int64 (out_of_range : float64 → Z) (f : float64) : Z :=
  match f with
  | S754_zero _ => 0
  | S754_finite s m e =>
      let t := Z.quot (float_num s m e) (float_den e) in
      if (- 2 ^ 63 <=? t) && (t <? 2 ^ 63) then t else out_of_range f
  | _ => out_of_range f
  end.

(** [reflect.Kind] *)
Module reflect.
Inductive Kind :=
| Invalid | Bool | Int | Int8 | Int16 | Int32 | Int64
| Uint | Uint8 | Uint16 | Uint32 | Uint64 | Uintptr
| Float32 | Float64 | Complex64 | Complex128
| Array | Chan | Func | Interface | Map | Pointer | Slice
| String | Struct | UnsafePointer.
End reflect.

Inductive SignedKind := KInt | KInt8 | KInt16 | KInt32 | KInt64.
Inductive UnsignedKind :=
| KUint | KUint8 | KUint16 | KUint32 | KUint64 | KUintptr.
Inductive FloatKind := KFloat32 | KFloat64.
Inductive OtherKind :=
| KComplex64 | KComplex128 | KArray | KChan | KFunc | KMap | KPointer
| KSlice | KStruct | KUnsafePointer.

(** A value of type [interface{}].  An integer carries its mathematical
    value, which lies in the range of its kind; a [float32] carries the
    float64 it widens to; a value of any other kind carries the text that
    the verb [%v] prints for it. *)
Inductive GoValue :=
| GoNil
| GoBool (b : bool)
| GoSigned (k : SignedKind) (n : Z)
| GoUnsigned (k : UnsignedKind) (n : Z)
| GoFloat (k : FloatKind) (f : float64)
| GoString (s : string)
| GoOther (k : OtherKind) (rendering : string).

Definition signed_Kind (k : SignedKind) : reflect.Kind :=
  match k with
  | KInt => reflect.Int
  | KInt8 => reflect.Int8
  | KInt16 => reflect.Int16
  | KInt32 => reflect.Int32
  | KInt64 => reflect.Int64
  end.

Definition unsigned_Kind (k : UnsignedKind) : reflect.Kind :=
  match k with
  | KUint => reflect.Uint
  | KUint8 => reflect.Uint8
  | KUint16 => reflect.Uint16
  | KUint32 => reflect.Uint32
  | KUint64 => reflect.Uint64
  | KUintptr => reflect.Uintptr
  end.

Definition float_Kind (k : FloatKind) : reflect.Kind :=
  match k with KFloat32 => reflect.Float32 | KFloat64 => reflect.Float64 end.

Definition other_Kind (k : OtherKind) : reflect.Kind :=
  match k with
  | KComplex64 => reflect.Complex64
  | KComplex128 => reflect.Complex128
  | KArray => reflect.Array
  | KChan => reflect.Chan
  | KFunc => reflect.Func
  | KMap => reflect.Map
  | KPointer => reflect.Pointer
  | KSlice => reflect.Slice
  | KStruct => reflect.Struct
  | KUnsafePointer => reflect.UnsafePointer
  end.

(** [reflect.ValueOf(v).Kind()] *)
Definition Kind_of (v : GoValue) : reflect.Kind :=
  match v with
  | GoNil => reflect.Invalid
  | GoBool _ => reflect.Bool
  | GoSigned k _ => signed_Kind k
  | GoUnsigned k _ => unsigned_Kind k
  | GoFloat k _ => float_Kind k
  | GoString _ => reflect.String
  | GoOther k _ => other_Kind k
  end.

(** The range of an integer kind ([int] and [uint] are 64 bits wide). *)
Definition signed_bits (k : SignedKind) : Z :=
  match k with
  | KInt8 => 8 | KInt16 => 16 | KInt32 => 32 | KInt | KInt64 => 64
  end.

Definition unsigned_bits (k : UnsignedKind) : Z :=
  match k with
  | KUint8 => 8 | KUint16 => 16 | KUint32 => 32
  | KUint | KUint64 | KUintptr => 64
  end.

Definition in_range (v : GoValue) : Prop :=
  match v with
  | GoSigned k n => - 2 ^ (signed_bits k - 1) <= n < 2 ^ (signed_bits k - 1)
  | GoUnsigned k n => 0 <= n < 2 ^ unsigned_bits k
  | _ => True
  end.

(** ** OTLP messages, one module for each protobuf package *)

Module common.
Inductive AnyValue :=
| AnyValue_StringValue (StringValue : string)
| AnyValue_BoolValue (BoolValue : bool)
| AnyValue_IntValue (IntValue : Z)
| AnyValue_DoubleValue (DoubleValue : float64)
| AnyValue_ArrayValue (Values : list AnyValue)
| AnyValue_KvlistValue (Values : list KeyValue)
with KeyValue :=
| Build_KeyValue (Key : string) (Value : AnyValue).

Definition Key (kv : KeyValue) : string :=
  match kv with Build_KeyValue k _ => k end.
Definition Value (kv : KeyValue) : AnyValue :=
  match kv with Build_KeyValue _ v => v end.

Record InstrumentationScope := { Name : string; Version : string }.
End common.

Module resource.
Record Resource := { Attributes : list common.KeyValue }.
End resource.

Module metrics.
Inductive AggregationTemporality :=
| AGGREGATION_TEMPORALITY_UNSPECIFIED
| AGGREGATION_TEMPORALITY_DELTA
| AGGREGATION_TEMPORALITY_CUMULATIVE.

Inductive NumberValue :=
| NumberDataPoint_AsInt (AsInt : Z)
| NumberDataPoint_AsDouble (AsDouble : float64).

Record NumberDataPoint := {
  StartTimeUnixNano : Z;
  TimeUnixNano : Z;
  Attributes : list common.KeyValue;
  Value : option NumberValue }.

Record Sum := {
  Sum_DataPoints : list NumberDataPoint;
  Sum_AggregationTemporality : AggregationTemporality;
  IsMonotonic : bool }.

Record Gauge := { Gauge_DataPoints : list NumberDataPoint }.

Inductive MetricData := Metric_Sum (s : Sum) | Metric_Gauge (g : Gauge).

Record Metric := { Name : string; Data : option MetricData }.

(** [Metrics] is a slice of pointers and the code stores nil in it. *)
Record ScopeMetrics := {
  Scope : option common.InstrumentationScope;
  Metrics : list (option Metric) }.

Record ResourceMetrics := {
  Resource : resource.Resource;
  RM_ScopeMetrics : list ScopeMetrics }.
End metrics.

Module logs.
Record LogRecord := {
  TimeUnixNano : Z;
  SeverityText : string;
  Body : common.AnyValue;
  Attributes : list common.KeyValue }.

Record ScopeLogs := {
  Scope : option common.InstrumentationScope;
  LogRecords : list LogRecord }.

Record ResourceLogs := {
  Resource : resource.Resource;
  RL_ScopeLogs : list ScopeLogs }.
End logs.

Module spans.
Record Span_Event := {
  Event_TimeUnixNano : Z;
  Event_Name : string;
  Event_Attributes : list common.KeyValue }.

Record Span_Link := {
  Link_TraceId : bytes;
  Link_SpanId : bytes;
  Link_TraceState : string;
  Link_Attributes : list common.KeyValue }.

Record Status := { Message : string; Code : Z }.

Record Span := {
  TraceId : bytes;
  SpanId : bytes;
  TraceState : string;
  ParentSpanId : bytes;
  Name : string;
  Kind : Z;
  StartTimeUnixNano : Z;
  EndTimeUnixNano : Z;
  Attributes : list common.KeyValue;
  Events : list Span_Event;
  Links : list Span_Link;
  Status_ : option Status }.

Record ScopeSpans := {
  Scope : option common.InstrumentationScope;
  Spans : list Span }.

Record ResourceSpans := {
  Resource : resource.Resource;
  RS_ScopeSpans : list ScopeSpans }.
End spans.

(** The three requests.  The top-level slice is nil ([None]) until the
    first [append]. *)
Module collmetrics.
Record ExportMetricsServiceRequest := {
  ResourceMetrics : option (list metrics.ResourceMetrics) }.
End collmetrics.

Module colllogs.
Record ExportLogsServiceRequest := {
  ResourceLogs : option (list logs.ResourceLogs) }.
End colllogs.

Module collspans.
Record ExportTraceServiceRequest := {
  ResourceSpans : option (list spans.ResourceSpans) }.
End collspans.

(** [protoreflect.ProtoMessage], as far as the exporter uses it. *)
Inductive ProtoMessage :=
| MetricsRequest (m : collmetrics.ExportMetricsServiceRequest)
| LogsRequest (m : colllogs.ExportLogsServiceRequest)
| TraceRequest (m : collspans.ExportTraceServiceRequest).

(** [append] on a slice that may be nil. *)
Definition append_nilable {A} (s : option (list A)) (x : A) : option (list A) :=
  Some (default [] s ++ [x]).

(** ** The telemetry model handed to the exporter *)

(** A Go map value: a reference into the heap, [None] for the nil map. *)
Definition mapref := option positive.

(** Modelled from the spec: the declarations of [Relationship],
    [DataPoint], [Metric], [Log], [Span] and its parts, and [Entity] are
    not in the source at hand; the fields are those the exporter reads
    (spec, section 3), times are int64 nanoseconds. *)
Module Relationship.
Record t := { Attributes : mapref }.
End Relationship.

Module DataPoint.
Record t := { StartTime : Z; EndTime : Z; Value : float64 }.
End DataPoint.

Module Metric.
Record t := {
  TypeName : string;
  ContentType : string;
  Type_ : string;
  AggregationTemporality : string;
  IsMonotonic : bool;
  Attributes : mapref;
  DataPoints : list DataPoint.t }.
End Metric.

Module Log.
Record t := {
  TypeName : string;
  Body : string;
  Timestamp : Z;
  Severity : string;
  Attributes : mapref;
  IsEvent : bool }.
End Log.

Module SpanEvent.
Record t := { Timestamp : Z; Name : string; Attributes : mapref }.
End SpanEvent.

Module SpanLink.
Record t := {
  TraceID : string;
  SpanID : string;
  TraceState : string;
  Attributes : mapref }.
End SpanLink.

Module SpanStatus.
Record t := { Message : string; Code : Z }.
End SpanStatus.

Module Span.
Record t := {
  Name : string;
  TraceID : string;
  SpanID : string;
  TraceState : string;
  ParentSpanID : string;
  Kind : Z;
  StartTime : Z;
  EndTime : Z;
  Attributes : mapref;
  Events : list SpanEvent.t;
  Links : list SpanLink.t;
  Status : option SpanStatus.t }.
End Span.

Module Entity.
Record t := {
  Attributes : mapref;
  Relationships : list Relationship.t;
  Metrics : list Metric.t;
  Logs : list Log.t;
  Spans : list Span.t }.
End Entity.

(** Modelled from the spec: the two constants are declared next to
    [Metric]; the spec names the temporalities [delta] and [cumulative]. *)
Definition AggregationTemporalityDelta : string := "delta".
Definition AggregationTemporalityCumulative : string := "cumulative".

(** ** Constants of the exporter *)

Definition pathMetrics := "metrics".
Definition pathLogs := "logs".
Definition pathSpans := "trace".
Definition agentName := "sample-datagen".
Definition agentVersion := "0.0.1".
Definition keyAppdFMMEntityRelationships := "appd.fmm.entity.relations".
Definition keyAppdIsEvent := "appd.isevent".
Definition keyAppdEventType := "appd.event.type".

Definition DumpFormatHuman := "human".
Definition DumpFormatText := "text".
Definition DumpFormatJson := "json".
Definition DumpFormatYaml := "yaml".
Definition DumpFormatHex := "hex".

(** [DumpFunc] is the callback, nil ([false]) or not; a call of it is the
    event [Dumped]. *)
Record Exporter := {
  DumpFunc : bool;
  DumpFormat : string;
  DryRun : bool }.

(** ** Errors, effects and the collaborators *)

Inductive error :=
| HttpStatusError (StatusCode : Z) (Message : string)
| errorString (msg : string)
| wrapError (msg : string) (cause : error).

(** [errors.As(err, &statusError)]: the first status error of the chain. *)
Fixpoint as_HttpStatusError (e : error) : option Z :=
  match e with
  | HttpStatusError c _ => Some c
  | errorString _ => None
  | wrapError _ c => as_HttpStatusError c
  end.

Definition error_text (e : error) : string :=
  match e with
  | HttpStatusError _ m => m
  | errorString m => m
  | wrapError m _ => m
  end.

Definition http_StatusForbidden : Z := 403.

Module api.
Record Options := {
  Headers : gmap string string;
  ResponseHeaders : gmap string (list string) }.
End api.

Inductive Level := DebugLevel | InfoLevel | WarnLevel | ErrorLevel | FatalLevel.

Inductive event :=
| Logged (lv : Level) (msg : string) (fields : list (string * string))
| Dumped (text : string)
| Posted (path : string) (body : bytes).

Record World := {
  heap : gmap positive (gmap string GoValue);
  trace : list event }.

(** How a call ends: it returns, it panics, or the process exits. *)
Inductive result (A : Type) :=
| Ok (a : A)
| Panic (msg : string)
| Exit (code : Z).
Arguments Ok {A} a.
Arguments Panic {A} msg.
Arguments Exit {A} code.

Definition M (A : Type) : Type := World → result A * World.

#[export] Instance M_ret : MRet M := λ A a w, (Ok a, w).
#[export] Instance M_bind : MBind M := λ A B f m w,
  match m w with
  | (Ok a, w') => f a w'
  | (Panic msg, w') => (Panic msg, w')
  | (Exit c, w') => (Exit c, w')
  end.

Definition emit (e : event) : M unit :=
  λ w, (Ok tt, {| heap := heap w; trace := trace w ++ [e] |}).
Definition panic {A} (msg : string) : M A := λ w, (Panic msg, w).
Definition os_Exit {A} (code : Z) : M A := λ w, (Exit code, w).

Definition log_Debugf (msg : string) : M unit := emit (Logged DebugLevel msg []).
Definition log_Info (msg : string) : M unit := emit (Logged InfoLevel msg []).
Definition log_Warnf (msg : string) : M unit := emit (Logged WarnLevel msg []).
Definition log_Errorf (msg : string) : M unit := emit (Logged ErrorLevel msg []).
Definition log_Fatalf {A} (msg : string) : M A :=
  emit (Logged FatalLevel msg []) ;; os_Exit 1.

(** The contents of a map: the nil map reads as the empty map, and so
    does an address that the heap does not hold. *)
Definition deref (h : gmap positive (gmap string GoValue)) (r : mapref)
  : gmap string GoValue :=
  match r with
  | None => ∅
  | Some p => default ∅ (h !! p)
  end.

Definition map_read (r : mapref) : M (gmap string GoValue) :=
  λ w, (Ok (deref (heap w) r), w).

(** [a[k] = v]; it panics on the nil map. *)
Definition map_assign (r : mapref) (k : string) (v : GoValue) : M unit :=
  match r with
  | None => panic "assignment to entry in nil map"
  | Some p => λ w,
      (Ok tt, {| heap := <[p := <[k := v]> (deref (heap w) r)]> (heap w);
                 trace := trace w |})
  end.

(** [for _, x := range xs { s = body x s }] over a slice, with the
    variables that the body updates as [s]. *)
Fixpoint for_range {A S} (xs : list A) (body : A → S → M S) (s : S) : M S :=
  match xs with
  | [] => mret s
  | x :: xs' => s' ← body x s; for_range xs' body s'
  end.

(** The order in which [range] visits a map: each entry once.  An
    instance is the choice of the runtime during one call of a function
    of the exporter; the runtime chooses anew at every [range], so what
    is said of two calls is said with one instance for each. *)
Class MapRange := {
  range_entries : gmap string GoValue → list (string * GoValue);
  range_entries_perm : ∀ m, range_entries m ≡ₚ map_to_list m }.

(** Code outside the file: the protobuf, JSON and YAML encoders, the HTTP
    client of the platform ([api.HTTPPost], which fills the response
    headers of its options) and the current configuration context; and
    two choices of the Go implementation, the text of a float under [%v]
    and the result of [int64(f)] where [f] has no int64 value. *)
Class Collaborators := {
  proto_Marshal : ProtoMessage → bytes + error;
  json_Marshal : ProtoMessage → bytes + error;
  json_MarshalIndent : ProtoMessage → string → bytes + error;
  prototext_Format : ProtoMessage → string;
  prototext_Marshal : ProtoMessage → bytes + error;
  yaml_Marshal : ProtoMessage → bytes + error;
  hex_Dump : bytes → string;
  output_JsonIndent : string;
  api_HTTPPost : string → bytes → api.Options → option error * api.Options;
  config_AuthMethod : string;
  config_AuthMethodAgentPrincipal : string;
  format_float : float64 → string;
  int64_out_of_range : float64 → Z }.

(** ** The solution fork command: the path of an extracted file *)

Module solution.
(** [strings.Index(s, substr)] as a position, if [substr] occurs. *)
Fixpoint Index_nat (s substr : string) : option nat :=
  if String.prefix substr s then Some 0%nat
  else match s with
       | EmptyString => None
       | String _ s' => S <$> Index_nat s' substr
       end.

(** [strings.Index(s, substr)]: the byte index of the first occurrence
    of [substr] in [s], or -1. *)
Definition strings_Index (s substr : string) : Z :=
  match Index_nat s substr with
  | Some i => Z.of_nat i
  | None => -1
  end.

Fixpoint drop_bytes (n : nat) (s : string) : string :=
  match n, s with
  | O, _ => s
  | S n', String _ s' => drop_bytes n' s'
  | S _, EmptyString => EmptyString
  end.

(** The slice expression [s[i:]]; it panics unless [0 <= i <= len(s)]. *)
Definition slice_from (s : string) (i : Z) : result string :=
  if (0 <=? i) && (i <=? Z.of_nat (String.length s))
  then Ok (drop_bytes (Z.to_nat i) s)
  else Panic "slice bounds out of range".

Definition convertZipLocToLocalLoc (zipLoc : string) : result string :=
  match slice_from zipLoc 2 with
  | Ok tail =>
      let secondSlashIndex := strings_Index tail "/" in
      slice_from zipLoc (secondSlashIndex + 3)
  | Panic msg => Panic msg
  | Exit code => Exit code
  end.
End solution.

(** ** Instances and inputs on which the results are run *)

(** One order of iteration: the order of [map_to_list]. *)
Definition canonical_range : MapRange :=
  {| range_entries := map_to_list;
     range_entries_perm := λ m, reflexivity (map_to_list m) |}.

(** Encoders that accept every message and a server that accepts every
    request; out of its range [int64(f)] is the least int64, as on amd64. *)
Definition accepting : Collaborators :=
  {| proto_Marshal := λ _, inl "wire";
     json_Marshal := λ _, inl "{}";
     json_MarshalIndent := λ _ _, inl "{}";
     prototext_Format := λ _, "text";
     prototext_Marshal := λ _, inl "text";
     yaml_Marshal := λ _, inl "yaml";
     hex_Dump := λ b, b;
     output_JsonIndent := "    ";
     api_HTTPPost := λ _ _ o, (None, o);
     config_AuthMethod := "oauth";
     config_AuthMethodAgentPrincipal := "agent-principal";
     format_float := λ _, "0";
     int64_out_of_range := λ _, - 2 ^ 63 |}.

(** The same, with a JSON encoder that rejects the message, as
    [encoding/json] rejects a NaN. *)
Definition json_rejecting : Collaborators :=
  {| proto_Marshal := λ _, inl "wire";
     json_Marshal := λ _, inr (errorString "json: unsupported value: NaN");
     json_MarshalIndent :=
       λ _ _, inr (errorString "json: unsupported value: NaN");
     prototext_Format := λ _, "text";
     prototext_Marshal := λ _, inl "text";
     yaml_Marshal := λ _, inl "yaml";
     hex_Dump := λ b, b;
     output_JsonIndent := "    ";
     api_HTTPPost := λ _ _ o, (None, o);
     config_AuthMethod := "oauth";
     config_AuthMethodAgentPrincipal := "agent-principal";
     format_float := λ _, "NaN";
     int64_out_of_range := λ _, - 2 ^ 63 |}.

Definition empty_world : World := {| heap := ∅; trace := [] |}.

(** The float64 values 7.0 and -7.5. *)
Definition float_7 : float64 := S754_finite false 7881299347898368 (-50).
Definition float_minus_7_5 : float64 := S754_finite true 8444249301319680 (-50).

Definition reqs_metric : Metric.t :=
  {| Metric.TypeName := "reqs";
     Metric.ContentType := "sum";
     Metric.Type_ := "long";
     Metric.AggregationTemporality := "cumulative";
     Metric.IsMonotonic := true;
     Metric.Attributes := None;
     Metric.DataPoints :=
       [{| DataPoint.StartTime := 1; DataPoint.EndTime := 2;
           DataPoint.Value := float_7 |}] |}.

Definition load_metric : Metric.t :=
  {| Metric.TypeName := "load";
     Metric.ContentType := "gauge";
     Metric.Type_ := "double";
     Metric.AggregationTemporality := "";
     Metric.IsMonotonic := false;
     Metric.Attributes := None;
     Metric.DataPoints :=
       [{| DataPoint.StartTime := 3; DataPoint.EndTime := 4;
           DataPoint.Value := float_minus_7_5 |}] |}.

Definition untyped_metric : Metric.t :=
  {| Metric.TypeName := "temp";
     Metric.ContentType := "gauge";
     Metric.Type_ := "int";
     Metric.AggregationTemporality := "";
     Metric.IsMonotonic := false;
     Metric.Attributes := None;
     Metric.DataPoints :=
       [{| DataPoint.StartTime := 5; DataPoint.EndTime := 6;
           DataPoint.Value := float_7 |}] |}.

Definition histogram_metric : Metric.t :=
  {| Metric.TypeName := "latency";
     Metric.ContentType := "histogram";
     Metric.Type_ := "double";
     Metric.AggregationTemporality := "";
     Metric.IsMonotonic := false;
     Metric.Attributes := None;
     Metric.DataPoints := [] |}.

Definition login_event (attributes : mapref) : Log.t :=
  {| Log.TypeName := "user.login";
     Log.Body := "hi";
     Log.Timestamp := 5;
     Log.Severity := "INFO";
     Log.Attributes := attributes;
     Log.IsEvent := true |}.

Definition entity_with (ms : list Metric.t) (ls : list Log.t)
    (ss : list Span.t) : Entity.t :=
  {| Entity.Attributes := None;
     Entity.Relationships := [];
     Entity.Metrics := ms;
     Entity.Logs := ls;
     Entity.Spans := ss |}.

Definition dry_run_json : Exporter :=
  {| DumpFunc := true; DumpFormat := DumpFormatJson; DryRun := true |}.

(** A gauge whose value is not a number, which protobuf encodes and JSON
    does not. *)
Definition nan_metric : Metric.t :=
  {| Metric.TypeName := "load";
     Metric.ContentType := "gauge";
     Metric.Type_ := "double";
     Metric.AggregationTemporality := "";
     Metric.IsMonotonic := false;
     Metric.Attributes := None;
     Metric.DataPoints :=
       [{| DataPoint.StartTime := 3; DataPoint.EndTime := 4;
           DataPoint.Value := S754_nan |}] |}.

(** The request that [buildMetricsPayload] makes of it. *)
Definition nan_request : ProtoMessage :=
  MetricsRequest
    {| collmetrics.ResourceMetrics := Some
         [{| metrics.Resource := {| resource.Attributes := [] |};
             metrics.RM_ScopeMetrics :=
               [{| metrics.Scope := Some
                     {| common.Name := "sample-datagen";
                        common.Version := "0.0.1" |};
                   metrics.Metrics :=
                     [Some {| metrics.Name := "load";
                              metrics.Data := Some (metrics.Metric_Gauge
                                {| metrics.Gauge_DataPoints :=
                                     [{| metrics.StartTimeUnixNano := 3;
                                         metrics.TimeUnixNano := 4;
                                         metrics.Attributes := [];
                                         metrics.Value := Some
                                           (metrics.NumberDataPoint_AsDouble
                                              S754_nan) |}] |}) |}] |}] |}] |}.

(** A world whose heap holds the mapping [{user: "r"}] at address 1. *)
Definition login_world : World :=
  {| heap := {[1%positive := {["user" := GoString "r"]}]}; trace := [] |}.

(** A server that refuses every request with the status 403. *)
Definition forbidding : Collaborators :=
  {| proto_Marshal := λ _, inl "wire";
     json_Marshal := λ _, inl "{}";
     json_MarshalIndent := λ _ _, inl "{}";
     prototext_Format := λ _, "text";
     prototext_Marshal := λ _, inl "text";
     yaml_Marshal := λ _, inl "yaml";
     hex_Dump := λ b, b;
     output_JsonIndent := "    ";
     api_HTTPPost := λ _ _ o, (Some (HttpStatusError 403 "forbidden"), o);
     config_AuthMethod := "oauth";
     config_AuthMethodAgentPrincipal := "agent-principal";
     format_float := λ _, "0";
     int64_out_of_range := λ _, - 2 ^ 63 |}.

(** An exporter that sends and does not dump. *)
Definition sending : Exporter :=
  {| DumpFunc := false; DumpFormat := ""; DryRun := false |}.

(** A world whose heap holds [{n: uint64(2^64 - 1)}] at address 1. *)
Definition max_uint_world : World :=
  {| heap := {[1%positive := {["n" := GoUnsigned KUint64 (2 ^ 64 - 1)]}]};
     trace := [] |}.

(** A world whose heap holds [{appd.isevent: false, user: "r"}] at
    address 1. *)
Definition supplied_world : World :=
  {| heap := {[1%positive :=
                 {["appd.isevent" := GoBool false; "user" := GoString "r"]}]};
     trace := [] |}.

Definition plain_log (attributes : mapref) : Log.t :=
  {| Log.TypeName := "note";
     Log.Body := "bye";
     Log.Timestamp := 6;
     Log.Severity := "";
     Log.Attributes := attributes;
     Log.IsEvent := false |}.

(** Another order of iteration: the order of [map_to_list], reversed. *)
Definition reversed_range : MapRange :=
  {| range_entries := λ m, reverse (map_to_list m);
     range_entries_perm := λ m, reverse_Permutation (map_to_list m) |}.



(** The span of the third scenario of the specification, with a second
    event and a link. *)
Definition login_span : Span.t :=
  {| Span.Name := "login";
     Span.TraceID := "t";
     Span.SpanID := "s";
     Span.TraceState := "";
     Span.ParentSpanID := "";
     Span.Kind := 1;
     Span.StartTime := 1;
     Span.EndTime := 2;
     Span.Attributes := Some 1%positive;
     Span.Events :=
       [{| SpanEvent.Timestamp := 9; SpanEvent.Name := "e";
           SpanEvent.Attributes := None |};
        {| SpanEvent.Timestamp := 10; SpanEvent.Name := "f";
           SpanEvent.Attributes := None |}];
     Span.Links :=
       [{| SpanLink.TraceID := "u"; SpanLink.SpanID := "v";
           SpanLink.TraceState := ""; SpanLink.Attributes := None |}];
     Span.Status :=
       Some {| SpanStatus.Message := "ok"; SpanStatus.Code := 1 |} |}.


(** ** The exporter *)

Definition newline : string := String (Ascii.ascii_of_nat 10) "".
Definition dquote : string := String (Ascii.ascii_of_nat 34) "".

(** The verb [%q] on a string without characters to escape. *)
Definition Sprintf_q (s : string) : string := dquote +:+ s +:+ dquote.

Section exporter.
Context {rng : MapRange} {env : Collaborators}.

(** [fmt.Sprintf("%v", v)] *)
Definition Sprintf_v (v : GoValue) : string :=
  match v with
  | GoNil => "<nil>"
  | GoBool b => if b then "true" else "false"
  | GoSigned _ n => pretty n
  | GoUnsigned _ n => pretty n
  | GoFloat _ f => format_float f
  | GoString s => s
  | GoOther _ r => r
  end.

(** The accessors of [reflect.Value]; the first four panic on a value
    of another kind. *)
Definition vt_Bool (v : GoValue) : M bool :=
  match v with
  | GoBool b => mret b
  | _ => panic "reflect: call of reflect.Value.Bool on Value of another kind"
  end.

Definition vt_Int (v : GoValue) : M Z :=
  match v with
  | GoSigned _ n => mret n
  | _ => panic "reflect: call of reflect.Value.Int on Value of another kind"
  end.

Definition vt_Uint (v : GoValue) : M Z :=
  match v with
  | GoUnsigned _ n => mret n
  | _ => panic "reflect: call of reflect.Value.Uint on Value of another kind"
  end.

Definition vt_Float (v : GoValue) : M float64 :=
  match v with
  | GoFloat _ f => mret f
  | _ => panic "reflect: call of reflect.Value.Float on Value of another kind"
  end.

Definition vt_String (v : GoValue) : string :=
  match v with
  | GoString s => s
  | _ => "<" +:+ Sprintf_v v +:+ " Value>"
  end.

Definition is_nil (v : GoValue) : bool :=
  match v with GoNil => true | _ => false end.

(** The [switch vt.Kind()] of [toKeyValueList]: the value to attach to
    the key, or [None] where the loop goes on to the next key. *)
Definition toKeyValueList_switch (k : string) (v : GoValue)
  : M (option common.AnyValue) :=
  match Kind_of v with
  | reflect.Bool =>
      b ← vt_Bool v; mret (Some (common.AnyValue_BoolValue b))
  | reflect.Int | reflect.Int8 | reflect.Int32 | reflect.Int64 =>
      n ← vt_Int v; mret (Some (common.AnyValue_IntValue n))
  | reflect.Uint | reflect.Uint8 | reflect.Uint32 | reflect.Uint64 =>
      n ← vt_Uint v; mret (Some (common.AnyValue_IntValue (to_int64 n)))
  | reflect.Float32 | reflect.Float64 =>
      f ← vt_Float v; mret (Some (common.AnyValue_DoubleValue f))
  | reflect.String =>
      mret (Some (common.AnyValue_StringValue (vt_String v)))
  | _ =>
      if is_nil v then
        log_Warnf ("Value not set for attribute: " +:+ k);; mret None
      else mret (Some (common.AnyValue_StringValue (Sprintf_v v)))
  end.

Definition toKeyValueList (a : mapref) : M (list common.KeyValue) :=
  m ← map_read a;
  for_range (range_entries m) (λ '(k, v) attribs,
    otVal ← toKeyValueList_switch k v;
    match otVal with
    | None => mret attribs
    | Some val => mret (attribs ++ [common.Build_KeyValue k val])
    end) [].

Definition getInstrumentationScope : common.InstrumentationScope :=
  {| common.Name := agentName; common.Version := agentVersion |}.

Definition createOtelMetric (exp : Exporter) (m : Metric.t)
  : M (option metrics.Metric) :=
  if (Metric.ContentType m =? "sum")%string then
    mAttribs ← toKeyValueList (Metric.Attributes m);
    let temporality :=
      if (Metric.AggregationTemporality m =? AggregationTemporalityDelta)%string
      then metrics.AGGREGATION_TEMPORALITY_DELTA
      else if (Metric.AggregationTemporality m =? AggregationTemporalityCumulative)%string
      then metrics.AGGREGATION_TEMPORALITY_CUMULATIVE
      else metrics.AGGREGATION_TEMPORALITY_UNSPECIFIED in
    let DataPoints :=
      foldl (λ dps dp,
        let value :=
          if (Metric.Type_ m =? "long")%string then
            Some (metrics.NumberDataPoint_AsInt
                    (float64_to_int64 int64_out_of_range (DataPoint.Value dp)))
          else if (Metric.Type_ m =? "double")%string then
            Some (metrics.NumberDataPoint_AsDouble (DataPoint.Value dp))
          else None in
        let sdp :=
          {| metrics.StartTimeUnixNano := to_uint64 (DataPoint.StartTime dp);
             metrics.TimeUnixNano := to_uint64 (DataPoint.EndTime dp);
             metrics.Attributes := mAttribs;
             metrics.Value := value |} in
        dps ++ [sdp]) [] (Metric.DataPoints m) in
    let s :=
      {| metrics.Sum_DataPoints := DataPoints;
         metrics.Sum_AggregationTemporality := temporality;
         metrics.IsMonotonic := Metric.IsMonotonic m |} in
    mret (Some {| metrics.Name := Metric.TypeName m;
                  metrics.Data := Some (metrics.Metric_Sum s) |})
  else if (Metric.ContentType m =? "gauge")%string then
    mAttribs ← toKeyValueList (Metric.Attributes m);
    let DataPoints :=
      foldl (λ dps dp,
        let value :=
          if (Metric.Type_ m =? "long")%string then
            Some (metrics.NumberDataPoint_AsInt
                    (float64_to_int64 int64_out_of_range (DataPoint.Value dp)))
          else if (Metric.Type_ m =? "double")%string then
            Some (metrics.NumberDataPoint_AsDouble (DataPoint.Value dp))
          else None in
        let otdp :=
          {| metrics.StartTimeUnixNano := to_uint64 (DataPoint.StartTime dp);
             metrics.TimeUnixNano := to_uint64 (DataPoint.EndTime dp);
             metrics.Attributes := mAttribs;
             metrics.Value := value |} in
        dps ++ [otdp]) [] (Metric.DataPoints m) in
    let s := {| metrics.Gauge_DataPoints := DataPoints |} in
    mret (Some {| metrics.Name := Metric.TypeName m;
                  metrics.Data := Some (metrics.Metric_Gauge s) |})
  else
    log_Errorf ("unsuported metrics type: " +:+ Metric.ContentType m);;
    mret None.

Definition createOtelLog (exp : Exporter) (l : Log.t) : M logs.LogRecord :=
  (if Log.IsEvent l then
     map_assign (Log.Attributes l) keyAppdIsEvent (GoString "true");;
     map_assign (Log.Attributes l) keyAppdEventType (GoString (Log.TypeName l))
   else mret tt);;
  lAttribs ← toKeyValueList (Log.Attributes l);
  mret {| logs.Body := common.AnyValue_StringValue (Log.Body l);
          logs.TimeUnixNano := to_uint64 (Log.Timestamp l);
          logs.Attributes := lAttribs;
          logs.SeverityText :=
            if negb (Log.Severity l =? "")%string then Log.Severity l else "" |}.

Definition createOtelSpan (exp : Exporter) (t : Span.t) : M spans.Span :=
  attributes ← toKeyValueList (Span.Attributes t);
  events ← for_range (Span.Events t) (λ e events,
    attrs ← toKeyValueList (SpanEvent.Attributes e);
    mret (events ++
      [{| spans.Event_TimeUnixNano := to_uint64 (SpanEvent.Timestamp e);
          spans.Event_Name := SpanEvent.Name e;
          spans.Event_Attributes := attrs |}])) [];
  links ← for_range (Span.Links t) (λ l links,
    attrs ← toKeyValueList (SpanLink.Attributes l);
    mret (links ++
      [{| spans.Link_TraceId := SpanLink.TraceID l;
          spans.Link_SpanId := SpanLink.SpanID l;
          spans.Link_TraceState := SpanLink.TraceState l;
          spans.Link_Attributes := attrs |}])) [];
  let status :=
    match Span.Status t with
    | Some st =>
        Some {| spans.Message := SpanStatus.Message st;
                spans.Code := to_int32 (SpanStatus.Code st) |}
    | None => None
    end in
  mret {| spans.Name := Span.Name t;
          spans.TraceId := Span.TraceID t;
          spans.SpanId := Span.SpanID t;
          spans.TraceState := Span.TraceState t;
          spans.ParentSpanId := Span.ParentSpanID t;
          spans.Kind := to_int32 (Span.Kind t);
          spans.StartTimeUnixNano := to_uint64 (Span.StartTime t);
          spans.EndTimeUnixNano := to_uint64 (Span.EndTime t);
          spans.Attributes := attributes;
          spans.Events := events;
          spans.Links := links;
          spans.Status_ := status |}.

(** The resource is a fresh object that the caller holds alone, so the
    update in place is the return of the updated resource. *)
Definition addRelationships (exp : Exporter) (rels : list Relationship.t)
    (r : resource.Resource) : M resource.Resource :=
  if (0 <? length rels)%nat then
    Values ← for_range rels (λ r Values,
      kvl ← toKeyValueList (Relationship.Attributes r);
      mret (Values ++ [common.AnyValue_KvlistValue kvl])) [];
    let attrib :=
      common.Build_KeyValue keyAppdFMMEntityRelationships
        (common.AnyValue_ArrayValue Values) in
    mret {| resource.Attributes := resource.Attributes r ++ [attrib] |}
  else mret r.

Definition addRelationshipsToMetrics (exp : Exporter)
    (rels : list Relationship.t) (rm : metrics.ResourceMetrics)
  : M metrics.ResourceMetrics :=
  if (0 <? length rels)%nat then
    Values ← for_range rels (λ r Values,
      kvl ← toKeyValueList (Relationship.Attributes r);
      mret (Values ++ [common.AnyValue_KvlistValue kvl])) [];
    let attrib :=
      common.Build_KeyValue keyAppdFMMEntityRelationships
        (common.AnyValue_ArrayValue Values) in
    mret {| metrics.Resource :=
              {| resource.Attributes :=
                   resource.Attributes (metrics.Resource rm) ++ [attrib] |};
            metrics.RM_ScopeMetrics := metrics.RM_ScopeMetrics rm |}
  else mret rm.

Definition buildMetricsPayload (exp : Exporter) (entities : list Entity.t)
  : M collmetrics.ExportMetricsServiceRequest :=
  for_range entities (λ entity emsr,
    if (length (Entity.Metrics entity) =? 0)%nat then mret emsr
    else
      attrs ← toKeyValueList (Entity.Attributes entity);
      let rm :=
        {| metrics.Resource := {| resource.Attributes := attrs |};
           metrics.RM_ScopeMetrics := [] |} in
      rm ← addRelationshipsToMetrics exp (Entity.Relationships entity) rm;
      ml ← for_range (Entity.Metrics entity) (λ m ml,
        otm ← createOtelMetric exp m;
        mret (ml ++ [otm])) [];
      let ilm :=
        {| metrics.Metrics := ml;
           metrics.Scope := Some getInstrumentationScope |} in
      let rm :=
        {| metrics.Resource := metrics.Resource rm;
           metrics.RM_ScopeMetrics := [ilm] |} in
      mret {| collmetrics.ResourceMetrics :=
                append_nilable (collmetrics.ResourceMetrics emsr) rm |})
    {| collmetrics.ResourceMetrics := None |}.

Definition buildLogsPayload (exp : Exporter) (entities : list Entity.t)
  : M colllogs.ExportLogsServiceRequest :=
  for_range entities (λ e elsr,
    if (length (Entity.Logs e) =? 0)%nat then mret elsr
    else
      attrs ← toKeyValueList (Entity.Attributes e);
      r ← addRelationships exp (Entity.Relationships e)
            {| resource.Attributes := attrs |};
      lr ← for_range (Entity.Logs e) (λ l lr,
        otl ← createOtelLog exp l;
        mret (lr ++ [otl])) [];
      let ill :=
        {| logs.LogRecords := lr;
           logs.Scope := Some getInstrumentationScope |} in
      let rl := {| logs.Resource := r; logs.RL_ScopeLogs := [ill] |} in
      mret {| colllogs.ResourceLogs :=
                append_nilable (colllogs.ResourceLogs elsr) rl |})
    {| colllogs.ResourceLogs := None |}.

Definition buildSpansPayload (exp : Exporter) (entities : list Entity.t)
  : M collspans.ExportTraceServiceRequest :=
  for_range entities (λ e etsr,
    if (length (Entity.Spans e) =? 0)%nat then mret etsr
    else
      attrs ← toKeyValueList (Entity.Attributes e);
      sl ← for_range (Entity.Spans e) (λ s sl,
        ots ← createOtelSpan exp s;
        mret (sl ++ [ots])) [];
      let ss :=
        {| spans.Spans := sl;
           spans.Scope := Some getInstrumentationScope |} in
      let rs :=
        {| spans.Resource := {| resource.Attributes := attrs |};
           spans.RS_ScopeSpans := [ss] |} in
      mret {| collspans.ResourceSpans :=
                append_nilable (collspans.ResourceSpans etsr) rs |})
    {| collspans.ResourceSpans := None |}.

(** [dumpPayload m format writer]; the call of [writer] is [Dumped]. *)
Definition dumpPayload (m : ProtoMessage) (format : string) : M unit :=
  let of_marshal (r : bytes + error) : string * option bytes * option error :=
    match r with
    | inl b => ("", Some b, None)
    | inr err => ("", None, Some err)
    end in
  let '(s, b, err) :=
    if (format =? DumpFormatHuman)%string then
      (prototext_Format m, None, None)
    else if (format =? DumpFormatText)%string then
      of_marshal (prototext_Marshal m)
    else if (format =? DumpFormatJson)%string then
      of_marshal (json_MarshalIndent m output_JsonIndent)
    else if (format =? DumpFormatYaml)%string then
      of_marshal (yaml_Marshal m)
    else if (format =? DumpFormatHex)%string then
      match proto_Marshal m with
      | inl b => (hex_Dump b, None, None)
      | inr err => ("", None, Some err)
      end
    else ("", None, None) in
  match err with
  | Some err =>
      log_Fatalf ("Unable to marshal MELT data to " +:+ format +:+
                  " format: " +:+ error_text err)
  | None =>
      let s :=
        match b with
        | Some b => if (s =? "")%string then b +:+ newline else s
        | None => s
        end in
      emit (Dumped s)
  end.

Definition hintAboutPermissions (err : error) : M unit :=
  match as_HttpStatusError err with
  | Some StatusCode =>
      if StatusCode =? http_StatusForbidden then
        if negb (config_AuthMethod =? config_AuthMethodAgentPrincipal)%string
        then
          log_Warnf
            ("Hint: this command requires a profile with ingestion permissions. "
             +:+ "Usually, this would be a profile that uses the "
             +:+ Sprintf_q "agent-principal" +:+ " auth method; "
             +:+ "the selected profile uses " +:+ Sprintf_q config_AuthMethod
             +:+ " instead. In general, any principal with "
             +:+ "ingestion permissions can be used, regardless of the auth type; "
             +:+ "these permissions can be assigned by adding the "
             +:+ Sprintf_q "iam:agent" +:+ " role to a principal using the "
             +:+ Sprintf_q "fsoc iam-role-binding" +:+ " command.")
        else mret tt
      else mret tt
  | None => mret tt
  end.

(** The call of the HTTP collaborator is the event [Posted]. *)
Definition exportHTTP (exp : Exporter) (path : string) (m : ProtoMessage)
  : M (option error) :=
  let options :=
    {| api.Headers :=
         {[ "Content-Type" := "application/x-protobuf";
            "Accept" := "application/x-protobuf" ]};
       api.ResponseHeaders := ∅ |} in
  match proto_Marshal m with
  | inr err =>
      mret (Some (wrapError
                    ("failed to marshal MELT data: " +:+ error_text err) err))
  | inl data =>
      (if DumpFunc exp then dumpPayload m (DumpFormat exp) else mret tt);;
      if negb (DryRun exp) then
        let apiPath := "data/v1/" +:+ path in
        emit (Posted apiPath data);;
        let '(err, options) := api_HTTPPost apiPath data options in
        match err with
        | Some err => hintAboutPermissions err;; mret (Some err)
        | None =>
            tr ← match api.ResponseHeaders options !! "Traceresponse" with
                 | Some (first :: _) => mret first
                 | Some [] => panic "index out of range [0] with length 0"
                 | None => mret ""
                 end;
            emit (Logged InfoLevel "Sent MELT data"
                    [("kind", path); ("path", apiPath);
                     ("trace_response", tr)]);;
            mret None
        end
      else mret None
  end.

(** [b, _ := json.Marshal(m); string(b)] *)
Definition json_text (m : ProtoMessage) : string :=
  match json_Marshal m with inl b => b | inr _ => "" end.

Definition ExportMetrics (exp : Exporter) (entities : list Entity.t)
  : M (option error) :=
  emsr ← buildMetricsPayload exp entities;
  match collmetrics.ResourceMetrics emsr with
  | None => log_Info "No metrics to send";; mret None
  | Some _ =>
      log_Debugf ("METRICS: " +:+ json_text (MetricsRequest emsr));;
      exportHTTP exp pathMetrics (MetricsRequest emsr)
  end.

Definition ExportLogs (exp : Exporter) (entities : list Entity.t)
  : M (option error) :=
  elsr ← buildLogsPayload exp entities;
  match colllogs.ResourceLogs elsr with
  | None => log_Info "No logs to send";; mret None
  | Some _ =>
      log_Debugf ("LOGS: " +:+ json_text (LogsRequest elsr));;
      exportHTTP exp pathLogs (LogsRequest elsr)
  end.

Definition ExportEvents (exp : Exporter) (entities : list Entity.t)
  : M (option error) :=
  ExportLogs exp entities.

Definition ExportSpans (exp : Exporter) (entities : list Entity.t)
  : M (option error) :=
  essr ← buildSpansPayload exp entities;
  match collspans.ResourceSpans essr with
  | None => log_Info "No spans to send";; mret None
  | Some _ =>
      log_Debugf ("SPANS: " +:+ json_text (TraceRequest essr));;
      exportHTTP exp pathSpans (TraceRequest essr)
  end.

(** ** What the functions compute

    The pure functions below give the value and the log events of the
    functions above on a heap [h]; the lemmas of the next part prove
    that the code computes them. *)

Definition add_events (es : list event) (w : World) : World :=
  {| heap := heap w; trace := trace w ++ es |}.

Definition coerce (v : GoValue) : option common.AnyValue :=
  match v with
  | GoNil => None
  | GoBool b => Some (common.AnyValue_BoolValue b)
  | GoSigned KInt16 n => Some (common.AnyValue_StringValue (pretty n))
  | GoSigned _ n => Some (common.AnyValue_IntValue n)
  | GoUnsigned KUint16 n | GoUnsigned KUintptr n =>
      Some (common.AnyValue_StringValue (pretty n))
  | GoUnsigned _ n => Some (common.AnyValue_IntValue (to_int64 n))
  | GoFloat _ f => Some (common.AnyValue_DoubleValue f)
  | GoString s => Some (common.AnyValue_StringValue s)
  | GoOther _ r => Some (common.AnyValue_StringValue r)
  end.

Definition coerce_entry (e : string * GoValue) : option common.KeyValue :=
  common.Build_KeyValue e.1 <$> coerce e.2.

Definition warn_entry (e : string * GoValue) : option event :=
  if is_nil e.2
  then Some (Logged WarnLevel ("Value not set for attribute: " +:+ e.1) [])
  else None.

Definition attributes_of (h : gmap positive (gmap string GoValue))
    (a : mapref) : list common.KeyValue :=
  omap coerce_entry (range_entries (deref h a)).

Definition warnings_of (h : gmap positive (gmap string GoValue))
    (a : mapref) : list event :=
  omap warn_entry (range_entries (deref h a)).

Definition number_value (Type_ : string) (f : float64)
  : option metrics.NumberValue :=
  if (Type_ =? "long")%string then
    Some (metrics.NumberDataPoint_AsInt (float64_to_int64 int64_out_of_range f))
  else if (Type_ =? "double")%string then
    Some (metrics.NumberDataPoint_AsDouble f)
  else None.

Definition data_point_of (Type_ : string) (attrs : list common.KeyValue)
    (dp : DataPoint.t) : metrics.NumberDataPoint :=
  {| metrics.StartTimeUnixNano := to_uint64 (DataPoint.StartTime dp);
     metrics.TimeUnixNano := to_uint64 (DataPoint.EndTime dp);
     metrics.Attributes := attrs;
     metrics.Value := number_value Type_ (DataPoint.Value dp) |}.

Definition supported (m : Metric.t) : bool :=
  (Metric.ContentType m =? "sum")%string
  || (Metric.ContentType m =? "gauge")%string.

Definition data_points_of (h : gmap positive (gmap string GoValue))
    (m : Metric.t) : list metrics.NumberDataPoint :=
  data_point_of (Metric.Type_ m) (attributes_of h (Metric.Attributes m))
    <$> Metric.DataPoints m.

Definition temporality_of (m : Metric.t) : metrics.AggregationTemporality :=
  if (Metric.AggregationTemporality m =? AggregationTemporalityDelta)%string
  then metrics.AGGREGATION_TEMPORALITY_DELTA
  else if (Metric.AggregationTemporality m =? AggregationTemporalityCumulative)%string
  then metrics.AGGREGATION_TEMPORALITY_CUMULATIVE
  else metrics.AGGREGATION_TEMPORALITY_UNSPECIFIED.

Definition metric_of (h : gmap positive (gmap string GoValue))
    (m : Metric.t) : option metrics.Metric :=
  if (Metric.ContentType m =? "sum")%string then
    Some {| metrics.Name := Metric.TypeName m;
            metrics.Data := Some (metrics.Metric_Sum
              {| metrics.Sum_DataPoints := data_points_of h m;
                 metrics.Sum_AggregationTemporality := temporality_of m;
                 metrics.IsMonotonic := Metric.IsMonotonic m |}) |}
  else if (Metric.ContentType m =? "gauge")%string then
    Some {| metrics.Name := Metric.TypeName m;
            metrics.Data := Some (metrics.Metric_Gauge
              {| metrics.Gauge_DataPoints := data_points_of h m |}) |}
  else None.

Definition metric_events (h : gmap positive (gmap string GoValue))
    (m : Metric.t) : list event :=
  if supported m then warnings_of h (Metric.Attributes m)
  else [Logged ErrorLevel
          ("unsuported metrics type: " +:+ Metric.ContentType m) []].

(** The data points that an emitted metric carries. *)
Definition emitted_data_points (otm : metrics.Metric)
  : list metrics.NumberDataPoint :=
  match metrics.Data otm with
  | Some (metrics.Metric_Sum s) => metrics.Sum_DataPoints s
  | Some (metrics.Metric_Gauge g) => metrics.Gauge_DataPoints g
  | None => []
  end.

Definition relations_value (h : gmap positive (gmap string GoValue))
    (rels : list Relationship.t) : list common.AnyValue :=
  (λ r, common.AnyValue_KvlistValue
          (attributes_of h (Relationship.Attributes r))) <$> rels.

Definition relations_attribute (h : gmap positive (gmap string GoValue))
    (rels : list Relationship.t) : list common.KeyValue :=
  match rels with
  | [] => []
  | _ => [common.Build_KeyValue keyAppdFMMEntityRelationships
            (common.AnyValue_ArrayValue (relations_value h rels))]
  end.

Definition relations_events (h : gmap positive (gmap string GoValue))
    (rels : list Relationship.t) : list event :=
  rels ≫= (λ r, warnings_of h (Relationship.Attributes r)).

Definition span_of (h : gmap positive (gmap string GoValue)) (t : Span.t)
  : spans.Span :=
  {| spans.Name := Span.Name t;
     spans.TraceId := Span.TraceID t;
     spans.SpanId := Span.SpanID t;
     spans.TraceState := Span.TraceState t;
     spans.ParentSpanId := Span.ParentSpanID t;
     spans.Kind := to_int32 (Span.Kind t);
     spans.StartTimeUnixNano := to_uint64 (Span.StartTime t);
     spans.EndTimeUnixNano := to_uint64 (Span.EndTime t);
     spans.Attributes := attributes_of h (Span.Attributes t);
     spans.Events :=
       (λ e, {| spans.Event_TimeUnixNano := to_uint64 (SpanEvent.Timestamp e);
                spans.Event_Name := SpanEvent.Name e;
                spans.Event_Attributes :=
                  attributes_of h (SpanEvent.Attributes e) |})
       <$> Span.Events t;
     spans.Links :=
       (λ l, {| spans.Link_TraceId := SpanLink.TraceID l;
                spans.Link_SpanId := SpanLink.SpanID l;
                spans.Link_TraceState := SpanLink.TraceState l;
                spans.Link_Attributes :=
                  attributes_of h (SpanLink.Attributes l) |})
       <$> Span.Links t;
     spans.Status_ :=
       (λ st, {| spans.Message := SpanStatus.Message st;
                 spans.Code := to_int32 (SpanStatus.Code st) |})
       <$> Span.Status t |}.

Definition span_events (h : gmap positive (gmap string GoValue))
    (t : Span.t) : list event :=
  warnings_of h (Span.Attributes t)
  ++ (Span.Events t ≫= (λ e, warnings_of h (SpanEvent.Attributes e)))
  ++ (Span.Links t ≫= (λ l, warnings_of h (SpanLink.Attributes l))).

Definition has_metrics (e : Entity.t) : bool :=
  negb (length (Entity.Metrics e) =? 0)%nat.
Definition has_logs (e : Entity.t) : bool :=
  negb (length (Entity.Logs e) =? 0)%nat.
Definition has_spans (e : Entity.t) : bool :=
  negb (length (Entity.Spans e) =? 0)%nat.

Definition resource_metrics_of (h : gmap positive (gmap string GoValue))
    (e : Entity.t) : metrics.ResourceMetrics :=
  {| metrics.Resource :=
       {| resource.Attributes :=
            attributes_of h (Entity.Attributes e)
            ++ relations_attribute h (Entity.Relationships e) |};
     metrics.RM_ScopeMetrics :=
       [{| metrics.Metrics := metric_of h <$> Entity.Metrics e;
           metrics.Scope := Some getInstrumentationScope |}] |}.

Definition resource_metrics_events (h : gmap positive (gmap string GoValue))
    (e : Entity.t) : list event :=
  warnings_of h (Entity.Attributes e)
  ++ relations_events h (Entity.Relationships e)
  ++ (Entity.Metrics e ≫= metric_events h).

Definition resource_spans_of (h : gmap positive (gmap string GoValue))
    (e : Entity.t) : spans.ResourceSpans :=
  {| spans.Resource :=
       {| resource.Attributes := attributes_of h (Entity.Attributes e) |};
     spans.RS_ScopeSpans :=
       [{| spans.Spans := span_of h <$> Entity.Spans e;
           spans.Scope := Some getInstrumentationScope |}] |}.

Definition resource_spans_events (h : gmap positive (gmap string GoValue))
    (e : Entity.t) : list event :=
  warnings_of h (Entity.Attributes e) ++ (Entity.Spans e ≫= span_events h).

(** The nil slice when nothing was appended. *)
Definition nilable {A} (l : list A) : option (list A) :=
  match l with [] => None | _ => Some l end.

(** The text that [dumpPayload] hands to the writer, or the error of
    the encoder of the format. *)
Definition dump_text (m : ProtoMessage) (format : string) : string + error :=
  let of_bytes (r : bytes + error) : string + error :=
    match r with inl b => inl (b +:+ newline) | inr err => inr err end in
  if (format =? DumpFormatHuman)%string then inl (prototext_Format m)
  else if (format =? DumpFormatText)%string then of_bytes (prototext_Marshal m)
  else if (format =? DumpFormatJson)%string then
    of_bytes (json_MarshalIndent m output_JsonIndent)
  else if (format =? DumpFormatYaml)%string then of_bytes (yaml_Marshal m)
  else if (format =? DumpFormatHex)%string then
    match proto_Marshal m with
    | inl b => inl (hex_Dump b)
    | inr err => inr err
    end
  else inl "".

Definition is_Posted (e : event) : bool :=
  match e with Posted _ _ => true | _ => false end.
Definition is_Dumped (e : event) : bool :=
  match e with Dumped _ => true | _ => false end.


(** The events that a run from [w] to [w'] added to the trace. *)
Definition new_events (w w' : World) : list event :=
  drop (length (trace w)) (trace w').

(** The mapping [a] holds under [k] a value that is emitted as [val]. *)
Definition supplied (a : gmap string GoValue) (k : string)
    (val : common.AnyValue) : Prop :=
  ∃ v, a !! k = Some v ∧ coerce v = Some val.

(** The top-level sequence of the request is not nil. *)
Definition non_empty (m : ProtoMessage) : bool :=
  match m with
  | MetricsRequest r => bool_decide (is_Some (collmetrics.ResourceMetrics r))
  | LogsRequest r => bool_decide (is_Some (colllogs.ResourceLogs r))
  | TraceRequest r => bool_decide (is_Some (collspans.ResourceSpans r))
  end.

(** Dry-run purity in the words of the specification: on a payload that
    is not empty and that protobuf marshals, a dry run never posts,
    returns success and calls a configured dump function once. *)
Definition dry_run_as_stated (exp : Exporter) (path : string)
    (m : ProtoMessage) (w : World) : Prop :=
  DryRun exp = true → non_empty m = true →
  (∃ data, proto_Marshal m = inl data) →
  let r := exportHTTP exp path m w in
  List.filter is_Posted (new_events w r.2) = []
  ∧ r.1 = Ok None
  ∧ (DumpFunc exp = true →
     length (List.filter is_Dumped (new_events w r.2)) = 1%nat).

(** The caller's mapping [a] after the two assignments of an event. *)
Definition tagged (l : Log.t) (a : gmap string GoValue)
  : gmap string GoValue :=
  <[keyAppdEventType := GoString (Log.TypeName l)]>
    (<[keyAppdIsEvent := GoString "true"]> a).

Definition log_record_of (h : gmap positive (gmap string GoValue))
    (l : Log.t) : logs.LogRecord :=
  {| logs.Body := common.AnyValue_StringValue (Log.Body l);
     logs.TimeUnixNano := to_uint64 (Log.Timestamp l);
     logs.Attributes := attributes_of h (Log.Attributes l);
     logs.SeverityText :=
       if negb (Log.Severity l =? "")%string then Log.Severity l else "" |}.

(** The one scope of a resource block. *)
Definition the_scope : common.InstrumentationScope :=
  {| common.Name := "sample-datagen"; common.Version := "0.0.1" |}.

(** A resource block carries one scope, the constant one. *)
Definition one_scope_metrics (rm : metrics.ResourceMetrics) : Prop :=
  ∃ ilm,
    metrics.RM_ScopeMetrics rm = [ilm] ∧ metrics.Scope ilm = Some the_scope.
Definition one_scope_logs (rl : logs.ResourceLogs) : Prop :=
  ∃ ill, logs.RL_ScopeLogs rl = [ill] ∧ logs.Scope ill = Some the_scope.
Definition one_scope_spans (rs : spans.ResourceSpans) : Prop :=
  ∃ ss, spans.RS_ScopeSpans rs = [ss] ∧ spans.Scope ss = Some the_scope.

(** ** Vocabulary of the further results *)

Definition is_Logged (e : event) : bool :=
  match e with Logged _ _ _ => true | _ => false end.

Definition is_warning (e : event) : bool :=
  match e with Logged WarnLevel _ _ => true | _ => false end.

(** Whatever way a run of [m] ends, the calls of the HTTP collaborator
    that it adds to the trace satisfy [P]. *)
Definition posts {A} (P : list event → Prop) (m : M A) : Prop :=
  ∀ w r w',
    m w = (r, w') →
    ∃ es, trace w' = trace w ++ es ∧ P (List.filter is_Posted es).

Definition no_post (l : list event) : Prop := l = [].

Definition at_most_one_post (apiPath : string) (l : list event) : Prop :=
  l = [] ∨ ∃ data, l = [Posted apiPath data].

Definition strip_relationships (e : Entity.t) : Entity.t :=
  {| Entity.Attributes := Entity.Attributes e;
     Entity.Relationships := [];
     Entity.Metrics := Entity.Metrics e;
     Entity.Logs := Entity.Logs e;
     Entity.Spans := Entity.Spans e |}.

(** The options that [exportHTTP] hands to the HTTP collaborator. *)
Definition request_options : api.Options :=
  {| api.Headers :=
       {[ "Content-Type" := "application/x-protobuf";
          "Accept" := "application/x-protobuf" ]};
     api.ResponseHeaders := ∅ |}.

(** The test of [hintAboutPermissions]: a status error 403 in the chain
    and a profile that is not an agent principal. *)
Definition hint_due (err : error) : bool :=
  match as_HttpStatusError err with
  | Some StatusCode =>
      (StatusCode =? http_StatusForbidden)
      && negb (config_AuthMethod =? config_AuthMethodAgentPrincipal)%string
  | None => false
  end.

(** The line that [exportHTTP] logs when the request was accepted. *)
Definition sent_line (path tr : string) : event :=
  Logged InfoLevel "Sent MELT data"
    [("kind", path); ("path", "data/v1/" +:+ path); ("trace_response", tr)].

(** A log record carries the body, the time and the severity of its log. *)
Definition record_of (l : Log.t) (otl : logs.LogRecord) : Prop :=
  logs.Body otl = common.AnyValue_StringValue (Log.Body l)
  ∧ logs.TimeUnixNano otl = to_uint64 (Log.Timestamp l)
  ∧ logs.SeverityText otl = Log.Severity l.

(** A gauge with other values of the two fields that only a sum has. *)
Definition with_sum_fields (m : Metric.t) (temporality : string)
    (monotonic : bool) : Metric.t :=
  {| Metric.TypeName := Metric.TypeName m;
     Metric.ContentType := Metric.ContentType m;
     Metric.Type_ := Metric.Type_ m;
     Metric.AggregationTemporality := temporality;
     Metric.IsMonotonic := monotonic;
     Metric.Attributes := Metric.Attributes m;
     Metric.DataPoints := Metric.DataPoints m |}.

(** ** Running the code *)

Lemma bind_Ok {A B} (m : M A) (f : A → M B) w a w' :
  m w = (Ok a, w') → (m ≫= f) w = f a w'.
Proof. intros Hm. unfold mbind, M_bind. now rewrite Hm. Qed.

Lemma add_events_nil w : add_events [] w = w.
Proof. destruct w. unfold add_events. cbn. now rewrite app_nil_r. Qed.

Lemma add_events_app es1 es2 w :
  add_events es2 (add_events es1 w) = add_events (es1 ++ es2) w.
Proof. unfold add_events. cbn. now rewrite app_assoc. Qed.

Lemma emit_run e w : emit e w = (Ok tt, add_events [e] w).
Proof. reflexivity. Qed.

(** A loop whose body reads the heap, logs and updates its variables. *)
Lemma for_range_read_only {A S} (upd : S → A → S) (ev : A → list event)
    (body : A → S → M S) (w : World) (xs : list A) :
  (∀ x s es,
     body x s (add_events es w) = (Ok (upd s x), add_events (es ++ ev x) w)) →
  ∀ s es,
    for_range xs body s (add_events es w)
    = (Ok (foldl upd s xs), add_events (es ++ (xs ≫= ev)) w).
Proof.
  intros Hbody. induction xs as [|x xs IH]; intros s es; cbn.
  - now rewrite app_nil_r.
  - rewrite (bind_Ok _ _ _ _ _ (Hbody x s es)), IH. now rewrite app_assoc.
Qed.

(** A property of the variables of a loop that relates them to the
    elements visited so far holds when the loop returns. *)
Lemma for_range_returns {A S} (R : list A → S → Prop) (body : A → S → M S)
    (xs : list A) :
  (∀ pre x s w s' w',
     R pre s → body x s w = (Ok s', w') → R (pre ++ [x]) s') →
  ∀ pre s w s' w',
    R pre s → for_range xs body s w = (Ok s', w') → R (pre ++ xs) s'.
Proof.
  intros Hbody. induction xs as [|x xs IH]; intros pre s w s' w' HR Hrun.
  - cbn in Hrun. injection Hrun as -> _. now rewrite app_nil_r.
  - cbn in Hrun. unfold mbind, M_bind in Hrun.
    destruct (body x s w) as [[s1| |] w1] eqn:Hx; try discriminate.
    replace (pre ++ x :: xs) with ((pre ++ [x]) ++ xs)
      by now rewrite <- app_assoc.
    eapply IH; [|exact Hrun]. eapply Hbody; eassumption.
Qed.

Lemma foldl_snoc_fmap {A B} (f : A → B) (xs : list A) (acc : list B) :
  foldl (λ l x, l ++ [f x]) acc xs = acc ++ (f <$> xs).
Proof.
  revert acc. induction xs as [|x xs IH]; intros acc; cbn.
  - now rewrite app_nil_r.
  - rewrite IH. now rewrite <- app_assoc.
Qed.

Lemma foldl_snoc_omap {A B} (f : A → option B) (xs : list A) (acc : list B) :
  foldl (λ l x, match f x with Some y => l ++ [y] | None => l end) acc xs
  = acc ++ omap f xs.
Proof.
  revert acc. induction xs as [|x xs IH]; intros acc; cbn.
  - now rewrite app_nil_r.
  - rewrite IH. destruct (f x); cbn; [now rewrite <- app_assoc | done].
Qed.

Lemma bind_option_list {A B} (f : A → option B) (xs : list A) :
  xs ≫= (λ x, option_list (f x)) = omap f xs.
Proof.
  induction xs as [|x xs IH]; cbn; [done|].
  rewrite IH. now destruct (f x).
Qed.

Lemma toKeyValueList_switch_run k v w :
  toKeyValueList_switch k v w
  = (Ok (coerce v), add_events (option_list (warn_entry (k, v))) w).
Proof.
  destruct v as [|b|[] n|[] n|[] f|s|[] r];
    cbn; now rewrite ?add_events_nil.
Qed.

Lemma toKeyValueList_run a w :
  toKeyValueList a w
  = (Ok (attributes_of (heap w) a), add_events (warnings_of (heap w) a) w).
Proof.
  unfold toKeyValueList.
  rewrite (bind_Ok _ _ w (deref (heap w) a) w) by reflexivity.
  pose proof (for_range_read_only
    (λ l e, match coerce_entry e with Some y => l ++ [y] | None => l end)
    (λ e, option_list (warn_entry e))
    (λ '(k, v) attribs,
       otVal ← toKeyValueList_switch k v;
       match otVal with
       | None => mret attribs
       | Some val => mret (attribs ++ [common.Build_KeyValue k val])
       end) w (range_entries (deref (heap w) a))) as Hloop.
  rewrite <- (add_events_nil w) at 2.
  rewrite Hloop.
  - rewrite foldl_snoc_omap, bind_option_list. reflexivity.
  - intros [k v] s es.
    rewrite (bind_Ok _ _ _ _ _ (toKeyValueList_switch_run k v _)).
    rewrite add_events_app. unfold coerce_entry. cbn.
    now destruct (coerce v).
Qed.

Lemma heap_add_events es w : heap (add_events es w) = heap w.
Proof. reflexivity. Qed.

Ltac run_with lem :=
  rewrite (bind_Ok _ _ _ _ _ lem);
  rewrite ?heap_add_events, ?add_events_app.

Lemma for_range_collect {A B} (f : A → B) (ev : A → list event)
    (body : A → list B → M (list B)) (w : World) (xs : list A) :
  (∀ x l es,
     body x l (add_events es w)
     = (Ok (l ++ [f x]), add_events (es ++ ev x) w)) →
  ∀ es,
    for_range xs body [] (add_events es w)
    = (Ok (f <$> xs), add_events (es ++ (xs ≫= ev)) w).
Proof.
  intros Hbody es.
  rewrite (for_range_read_only (λ l x, l ++ [f x]) ev _ _ _ Hbody).
  now rewrite foldl_snoc_fmap.
Qed.

Lemma createOtelMetric_run exp m w :
  createOtelMetric exp m w
  = (Ok (metric_of (heap w) m), add_events (metric_events (heap w) m) w).
Proof.
  unfold createOtelMetric, metric_of, metric_events, supported.
  destruct (Metric.ContentType m =? "sum")%string.
  { run_with (toKeyValueList_run (Metric.Attributes m) w). cbn zeta.
    rewrite (foldl_snoc_fmap
               (data_point_of (Metric.Type_ m)
                  (attributes_of (heap w) (Metric.Attributes m)))).
    reflexivity. }
  destruct (Metric.ContentType m =? "gauge")%string.
  { run_with (toKeyValueList_run (Metric.Attributes m) w). cbn zeta.
    rewrite (foldl_snoc_fmap
               (data_point_of (Metric.Type_ m)
                  (attributes_of (heap w) (Metric.Attributes m)))).
    reflexivity. }
  reflexivity.
Qed.

Lemma relations_loop_run rels es w :
  for_range rels (λ r Values,
    kvl ← toKeyValueList (Relationship.Attributes r);
    mret (Values ++ [common.AnyValue_KvlistValue kvl])) [] (add_events es w)
  = (Ok (relations_value (heap w) rels),
     add_events (es ++ relations_events (heap w) rels) w).
Proof.
  apply (for_range_collect
           (λ r, common.AnyValue_KvlistValue
                   (attributes_of (heap w) (Relationship.Attributes r)))
           (λ r, warnings_of (heap w) (Relationship.Attributes r))).
  intros r l es'. run_with (toKeyValueList_run (Relationship.Attributes r)
                              (add_events es' w)).
  reflexivity.
Qed.

Lemma addRelationships_run exp rels r es w :
  addRelationships exp rels r (add_events es w)
  = (Ok {| resource.Attributes :=
             resource.Attributes r ++ relations_attribute (heap w) rels |},
     add_events (es ++ relations_events (heap w) rels) w).
Proof.
  unfold addRelationships. destruct rels as [|r0 rels].
  - cbn. rewrite !app_nil_r. now destruct r.
  - cbn [length Nat.ltb Nat.leb].
    run_with (relations_loop_run (r0 :: rels) es w). reflexivity.
Qed.

Lemma addRelationshipsToMetrics_run exp rels rm es w :
  addRelationshipsToMetrics exp rels rm (add_events es w)
  = (Ok {| metrics.Resource :=
             {| resource.Attributes :=
                  resource.Attributes (metrics.Resource rm)
                  ++ relations_attribute (heap w) rels |};
           metrics.RM_ScopeMetrics := metrics.RM_ScopeMetrics rm |},
     add_events (es ++ relations_events (heap w) rels) w).
Proof.
  unfold addRelationshipsToMetrics. destruct rels as [|r0 rels].
  - cbn. rewrite !app_nil_r. now destruct rm as [[?] ?].
  - cbn [length Nat.ltb Nat.leb].
    run_with (relations_loop_run (r0 :: rels) es w). reflexivity.
Qed.

Lemma span_events_loop_run (evs : list SpanEvent.t) es w :
  for_range evs (λ e events,
    attrs ← toKeyValueList (SpanEvent.Attributes e);
    mret (events ++
      [{| spans.Event_TimeUnixNano := to_uint64 (SpanEvent.Timestamp e);
          spans.Event_Name := SpanEvent.Name e;
          spans.Event_Attributes := attrs |}])) [] (add_events es w)
  = (Ok ((λ e, {| spans.Event_TimeUnixNano := to_uint64 (SpanEvent.Timestamp e);
                  spans.Event_Name := SpanEvent.Name e;
                  spans.Event_Attributes :=
                    attributes_of (heap w) (SpanEvent.Attributes e) |})
         <$> evs),
     add_events
       (es ++ (evs ≫= (λ e, warnings_of (heap w) (SpanEvent.Attributes e)))) w).
Proof.
  apply (for_range_collect _
           (λ e, warnings_of (heap w) (SpanEvent.Attributes e))).
  intros e l es'.
  run_with (toKeyValueList_run (SpanEvent.Attributes e) (add_events es' w)).
  reflexivity.
Qed.

Lemma span_links_loop_run (lks : list SpanLink.t) es w :
  for_range lks (λ l links,
    attrs ← toKeyValueList (SpanLink.Attributes l);
    mret (links ++
      [{| spans.Link_TraceId := SpanLink.TraceID l;
          spans.Link_SpanId := SpanLink.SpanID l;
          spans.Link_TraceState := SpanLink.TraceState l;
          spans.Link_Attributes := attrs |}])) [] (add_events es w)
  = (Ok ((λ l, {| spans.Link_TraceId := SpanLink.TraceID l;
                  spans.Link_SpanId := SpanLink.SpanID l;
                  spans.Link_TraceState := SpanLink.TraceState l;
                  spans.Link_Attributes :=
                    attributes_of (heap w) (SpanLink.Attributes l) |})
         <$> lks),
     add_events
       (es ++ (lks ≫= (λ l, warnings_of (heap w) (SpanLink.Attributes l)))) w).
Proof.
  apply (for_range_collect _
           (λ l, warnings_of (heap w) (SpanLink.Attributes l))).
  intros l acc es'.
  run_with (toKeyValueList_run (SpanLink.Attributes l) (add_events es' w)).
  reflexivity.
Qed.

Lemma createOtelSpan_run exp t es w :
  createOtelSpan exp t (add_events es w)
  = (Ok (span_of (heap w) t), add_events (es ++ span_events (heap w) t) w).
Proof.
  unfold createOtelSpan, span_events.
  run_with (toKeyValueList_run (Span.Attributes t) (add_events es w)).
  run_with (span_events_loop_run (Span.Events t)
              (es ++ warnings_of (heap w) (Span.Attributes t)) w).
  run_with (span_links_loop_run (Span.Links t)
              ((es ++ warnings_of (heap w) (Span.Attributes t))
               ++ (Span.Events t
                   ≫= (λ e, warnings_of (heap w) (SpanEvent.Attributes e)))) w).
  rewrite <- !app_assoc. unfold span_of.
  now destruct (Span.Status t).
Qed.

Lemma default_nilable {A} (l : list A) : default [] (nilable l) = l.
Proof. now destruct l. Qed.

Lemma nilable_snoc {A} (l : list A) x : nilable (l ++ [x]) = Some (l ++ [x]).
Proof. now destruct l. Qed.

(** The top-level loop of the three payload builders. *)
Lemma foldl_append_nilable {A B S} (mk : option (list B) → S)
    (proj : S → option (list B)) (p : A → bool) (f : A → B) (xs : list A) :
  (∀ o, proj (mk o) = o) →
  ∀ acc,
    foldl (λ s x, if p x then mk (append_nilable (proj s) (f x)) else s)
      (mk (nilable acc)) xs
    = mk (nilable (acc ++ (f <$> List.filter p xs))).
Proof.
  intros Hproj. induction xs as [|x xs IH]; intros acc; cbn.
  - now rewrite app_nil_r.
  - destruct (p x); cbn; [|apply IH].
    rewrite Hproj. unfold append_nilable. rewrite default_nilable.
    rewrite <- nilable_snoc, IH. now rewrite <- app_assoc.
Qed.

Lemma bind_filter {A B} (p : A → bool) (ev : A → list B) (xs : list A) :
  xs ≫= (λ x, if p x then ev x else []) = List.filter p xs ≫= ev.
Proof.
  induction xs as [|x xs IH]; cbn; [done|].
  destruct (p x); cbn; now rewrite IH.
Qed.

Lemma metrics_loop_run exp (ms : list Metric.t) es w :
  for_range ms (λ m ml,
    otm ← createOtelMetric exp m; mret (ml ++ [otm])) [] (add_events es w)
  = (Ok (metric_of (heap w) <$> ms),
     add_events (es ++ (ms ≫= metric_events (heap w))) w).
Proof.
  apply for_range_collect. intros m l es'.
  run_with (createOtelMetric_run exp m (add_events es' w)). reflexivity.
Qed.

Lemma spans_loop_run exp (ss : list Span.t) es w :
  for_range ss (λ s sl,
    ots ← createOtelSpan exp s; mret (sl ++ [ots])) [] (add_events es w)
  = (Ok (span_of (heap w) <$> ss),
     add_events (es ++ (ss ≫= span_events (heap w))) w).
Proof.
  apply for_range_collect. intros s l es'.
  run_with (createOtelSpan_run exp s es' w). reflexivity.
Qed.

Lemma buildMetricsPayload_run exp entities w :
  buildMetricsPayload exp entities w
  = (Ok {| collmetrics.ResourceMetrics :=
             nilable (resource_metrics_of (heap w)
                      <$> List.filter has_metrics entities) |},
     add_events (List.filter has_metrics entities
                 ≫= resource_metrics_events (heap w)) w).
Proof.
  unfold buildMetricsPayload.
  pose proof (for_range_read_only
    (λ s e, if has_metrics e
            then {| collmetrics.ResourceMetrics :=
                      append_nilable (collmetrics.ResourceMetrics s)
                        (resource_metrics_of (heap w) e) |}
            else s)
    (λ e, if has_metrics e then resource_metrics_events (heap w) e else []))
    as Hloop.
  rewrite <- (add_events_nil w) at 1. erewrite Hloop.
  - rewrite bind_filter.
    do 2 f_equal.
    apply (foldl_append_nilable collmetrics.Build_ExportMetricsServiceRequest
             collmetrics.ResourceMetrics has_metrics
             (resource_metrics_of (heap w)) entities (λ o, eq_refl) []).
  - intros e s es. unfold has_metrics.
    destruct (length (Entity.Metrics e) =? 0)%nat; cbn [negb].
    { now rewrite app_nil_r. }
    run_with (toKeyValueList_run (Entity.Attributes e) (add_events es w)).
    run_with (addRelationshipsToMetrics_run exp (Entity.Relationships e)
      {| metrics.Resource :=
           {| resource.Attributes :=
                attributes_of (heap w) (Entity.Attributes e) |};
         metrics.RM_ScopeMetrics := [] |}
      (es ++ warnings_of (heap w) (Entity.Attributes e)) w).
    run_with (metrics_loop_run exp (Entity.Metrics e)
      ((es ++ warnings_of (heap w) (Entity.Attributes e))
       ++ relations_events (heap w) (Entity.Relationships e)) w).
    unfold resource_metrics_events. now rewrite <- !app_assoc.
Qed.

Lemma buildSpansPayload_run exp entities w :
  buildSpansPayload exp entities w
  = (Ok {| collspans.ResourceSpans :=
             nilable (resource_spans_of (heap w)
                      <$> List.filter has_spans entities) |},
     add_events (List.filter has_spans entities
                 ≫= resource_spans_events (heap w)) w).
Proof.
  unfold buildSpansPayload.
  pose proof (for_range_read_only
    (λ s e, if has_spans e
            then {| collspans.ResourceSpans :=
                      append_nilable (collspans.ResourceSpans s)
                        (resource_spans_of (heap w) e) |}
            else s)
    (λ e, if has_spans e then resource_spans_events (heap w) e else []))
    as Hloop.
  rewrite <- (add_events_nil w) at 1. erewrite Hloop.
  - rewrite bind_filter.
    do 2 f_equal.
    apply (foldl_append_nilable collspans.Build_ExportTraceServiceRequest
             collspans.ResourceSpans has_spans
             (resource_spans_of (heap w)) entities (λ o, eq_refl) []).
  - intros e s es. unfold has_spans.
    destruct (length (Entity.Spans e) =? 0)%nat; cbn [negb].
    { now rewrite app_nil_r. }
    run_with (toKeyValueList_run (Entity.Attributes e) (add_events es w)).
    run_with (spans_loop_run exp (Entity.Spans e)
      (es ++ warnings_of (heap w) (Entity.Attributes e)) w).
    unfold resource_spans_events. now rewrite <- !app_assoc.
Qed.

(** ** Facts about the iteration order and the attribute list *)

Lemma range_entries_empty : range_entries ∅ = [].
Proof.
  apply Permutation_nil_r. rewrite range_entries_perm.
  now rewrite map_to_list_empty.
Qed.

Lemma range_entries_singleton k v : range_entries {[k := v]} = [(k, v)].
Proof.
  apply Permutation_singleton_r. rewrite range_entries_perm.
  now rewrite map_to_list_singleton.
Qed.

Lemma attributes_of_nil h : attributes_of h None = [].
Proof. unfold attributes_of. cbn. now rewrite range_entries_empty. Qed.

Lemma warnings_of_nil h : warnings_of h None = [].
Proof. unfold warnings_of. cbn. now rewrite range_entries_empty. Qed.

(** An attribute is emitted exactly for the entries of the map whose
    value the switch turns into a value. *)
Lemma elem_of_attributes_of h a k val :
  common.Build_KeyValue k val ∈ attributes_of h a
  ↔ ∃ v, deref h a !! k = Some v ∧ coerce v = Some val.
Proof.
  unfold attributes_of. rewrite list_elem_of_omap. split.
  - intros [[k' v] [Hin Hc]]. rewrite range_entries_perm in Hin.
    apply elem_of_map_to_list in Hin. unfold coerce_entry in Hc. cbn in Hc.
    destruct (coerce v) as [val'|] eqn:Hv; [|discriminate].
    cbn in Hc. injection Hc as -> ->. eauto.
  - intros [v [Hk Hv]]. exists (k, v). split.
    + rewrite range_entries_perm. now apply elem_of_map_to_list.
    + unfold coerce_entry. cbn. now rewrite Hv.
Qed.

Lemma new_events_add_events es w :
  drop (length (trace w)) (trace (add_events es w)) = es.
Proof. cbn. now rewrite drop_app_length. Qed.

(** [Z.quot] is the truncation toward zero of the exact quotient. *)
Lemma quot_truncates n d :
  0 < d →
  Z.abs (Z.quot n d) * d <= Z.abs n < (Z.abs (Z.quot n d) + 1) * d
  ∧ 0 <= Z.quot n d * n.
Proof.
  intros Hd. split.
  - assert (Habs : Z.abs (Z.quot n d) = Z.abs n / d).
    { rewrite <- Z.quot_abs by lia.
      rewrite (Z.abs_eq d) by lia. apply Z.quot_div_nonneg; lia. }
    rewrite Habs.
    pose proof (Z.mul_div_le (Z.abs n) d Hd).
    pose proof (Z.mul_succ_div_gt (Z.abs n) d Hd). lia.
  - destruct (Z.le_gt_cases 0 n) as [Hn|Hn].
    + pose proof (Z.quot_pos n d Hn Hd). nia.
    + rewrite <- (Z.opp_involutive n) at 1. rewrite Z.quot_opp_l by lia.
      pose proof (Z.quot_pos (- n) d ltac:(lia) Hd). nia.
Qed.

(** ** The attribute coercer and the metric builder *)

(** C2, on the code: the 16-bit kinds are not among the kinds of the two
    integer cases of [toKeyValueList], so the attribute [port] of value
    [int16(n)], and likewise [uint16(n)], is emitted as the string that
    prints [n] and not as an IntValue. *)
Theorem int16_attribute_is_a_string (n : Z) (tr : list event) :
  let w := {| heap := {[1%positive := {["port" := GoSigned KInt16 n]};
                        2%positive := {["port" := GoUnsigned KUint16 n]}]};
              trace := tr |} in
  toKeyValueList (Some 1%positive) w
  = (Ok [common.Build_KeyValue "port" (common.AnyValue_StringValue (pretty n))],
     w)
  ∧ toKeyValueList (Some 2%positive) w
    = (Ok [common.Build_KeyValue "port"
             (common.AnyValue_StringValue (pretty n))],
       w).
Proof.
  intros w. rewrite !toKeyValueList_run.
  unfold attributes_of, warnings_of. cbn [deref heap w].
  rewrite lookup_insert_eq, lookup_insert_ne, lookup_singleton_eq by done.
  cbn [default from_option id].
  rewrite !range_entries_singleton. cbn. now rewrite add_events_nil.
Qed.

(** C1, on the code: [createOtelMetric] logs the error and returns nil
    for a content type other than sum and gauge, and
    [buildMetricsPayload] appends that nil: the Metrics list of the
    entity that holds a histogram and a sum has two entries, the first
    one nil. *)
Theorem unsupported_metric_is_kept_as_nil (exp : Exporter) (w : World) :
  buildMetricsPayload exp
    [entity_with [histogram_metric; reqs_metric] [] []] w
  = (Ok {| collmetrics.ResourceMetrics := Some
       [{| metrics.Resource := {| resource.Attributes := [] |};
           metrics.RM_ScopeMetrics :=
             [{| metrics.Scope := Some the_scope;
                 metrics.Metrics :=
                   [None;
                    Some {| metrics.Name := "reqs";
                            metrics.Data := Some (metrics.Metric_Sum
                              {| metrics.Sum_DataPoints :=
                                   [{| metrics.StartTimeUnixNano := 1;
                                       metrics.TimeUnixNano := 2;
                                       metrics.Attributes := [];
                                       metrics.Value := Some
                                         (metrics.NumberDataPoint_AsInt 7) |}];
                                 metrics.Sum_AggregationTemporality :=
                                   metrics.AGGREGATION_TEMPORALITY_CUMULATIVE;
                                 metrics.IsMonotonic := true |}) |}] |}] |}] |},
     add_events
       [Logged ErrorLevel "unsuported metrics type: histogram" []] w).
Proof.
  rewrite buildMetricsPayload_run. cbn [List.filter has_metrics entity_with
    Entity.Metrics length Nat.eqb negb fmap list_fmap mbind list_bind nilable].
  unfold resource_metrics_of, resource_metrics_events, metric_events,
    relations_events.
  cbn [entity_with Entity.Attributes Entity.Relationships Entity.Metrics
       fmap list_fmap mbind list_bind relations_attribute].
  rewrite ?attributes_of_nil, ?warnings_of_nil.
  unfold metric_of, data_points_of. cbn [reqs_metric Metric.Attributes].
  rewrite ?attributes_of_nil, ?warnings_of_nil.
  reflexivity.
Qed.

(** C9: a sum or gauge metric is emitted with one data point for each
    input data point, in order; with Type "long" the value is the
    integer [int64(Value)], which for every finite [Value] whose integer
    part is an int64 is the exact quotient truncated toward zero; with
    Type "double" the value is [Value] itself. *)
Theorem number_value_follows_Type (exp : Exporter) (m : Metric.t) (w : World) :
  supported m = true →
  ∃ otm w',
    createOtelMetric exp m w = (Ok (Some otm), w')
    ∧ (Metric.Type_ m = "long" →
       emitted_data_points otm
       = (λ dp,
            {| metrics.StartTimeUnixNano := to_uint64 (DataPoint.StartTime dp);
               metrics.TimeUnixNano := to_uint64 (DataPoint.EndTime dp);
               metrics.Attributes :=
                 attributes_of (heap w) (Metric.Attributes m);
               metrics.Value := Some
                 (metrics.NumberDataPoint_AsInt
                    (float64_to_int64 int64_out_of_range
                       (DataPoint.Value dp))) |})
         <$> Metric.DataPoints m)
    ∧ (Metric.Type_ m = "double" →
       emitted_data_points otm
       = (λ dp,
            {| metrics.StartTimeUnixNano := to_uint64 (DataPoint.StartTime dp);
               metrics.TimeUnixNano := to_uint64 (DataPoint.EndTime dp);
               metrics.Attributes :=
                 attributes_of (heap w) (Metric.Attributes m);
               metrics.Value := Some
                 (metrics.NumberDataPoint_AsDouble (DataPoint.Value dp)) |})
         <$> Metric.DataPoints m)
    ∧ (∀ s mant e,
         let t := float64_to_int64 int64_out_of_range (S754_finite s mant e) in
         let n := float_num s mant e in
         let d := float_den e in
         - 2 ^ 63 <= Z.quot n d < 2 ^ 63 →
         t = Z.quot n d
         ∧ Z.abs t * d <= Z.abs n < (Z.abs t + 1) * d
         ∧ 0 <= t * n).
Proof.
  intros Hs. rewrite createOtelMetric_run.
  unfold supported in Hs. unfold metric_of.
  assert (Hlong : Metric.Type_ m = "long" →
            ∀ attrs dp,
              data_point_of (Metric.Type_ m) attrs dp
              = {| metrics.StartTimeUnixNano := to_uint64 (DataPoint.StartTime dp);
                   metrics.TimeUnixNano := to_uint64 (DataPoint.EndTime dp);
                   metrics.Attributes := attrs;
                   metrics.Value := Some
                     (metrics.NumberDataPoint_AsInt
                        (float64_to_int64 int64_out_of_range
                           (DataPoint.Value dp))) |}).
  { intros ->. reflexivity. }
  assert (Hdouble : Metric.Type_ m = "double" →
            ∀ attrs dp,
              data_point_of (Metric.Type_ m) attrs dp
              = {| metrics.StartTimeUnixNano := to_uint64 (DataPoint.StartTime dp);
                   metrics.TimeUnixNano := to_uint64 (DataPoint.EndTime dp);
                   metrics.Attributes := attrs;
                   metrics.Value := Some
                     (metrics.NumberDataPoint_AsDouble (DataPoint.Value dp)) |}).
  { intros ->. reflexivity. }
  assert (Htrunc : ∀ s mant e,
            let t := float64_to_int64 int64_out_of_range (S754_finite s mant e) in
            let n := float_num s mant e in
            let d := float_den e in
            - 2 ^ 63 <= Z.quot n d < 2 ^ 63 →
            t = Z.quot n d
            ∧ Z.abs t * d <= Z.abs n < (Z.abs t + 1) * d
            ∧ 0 <= t * n).
  { intros s mant e t n d Hr.
    assert (Ht : t = Z.quot n d).
    { subst t n d. cbn [float64_to_int64].
      destruct (Z.leb_spec (- 2 ^ 63) (Z.quot (float_num s mant e) (float_den e)));
        destruct (Z.ltb_spec (Z.quot (float_num s mant e) (float_den e)) (2 ^ 63));
        cbn [andb]; lia. }
    split; [exact Ht|]. rewrite Ht. apply quot_truncates.
    subst d. unfold float_den. apply Z.pow_pos_nonneg; lia. }
  destruct (Metric.ContentType m =? "sum")%string.
  - eexists _, _. split; [reflexivity|]. cbn [emitted_data_points metrics.Data
      metrics.Sum_DataPoints]. unfold data_points_of.
    split; [|split]; [| |exact Htrunc].
    + intros Hl. apply list_fmap_ext. intros _ dp _. now apply Hlong.
    + intros Hd. apply list_fmap_ext. intros _ dp _. now apply Hdouble.
  - cbn [orb] in Hs. rewrite Hs.
    eexists _, _. split; [reflexivity|]. cbn [emitted_data_points metrics.Data
      metrics.Gauge_DataPoints]. unfold data_points_of.
    split; [|split]; [| |exact Htrunc].
    + intros Hl. apply list_fmap_ext. intros _ dp _. now apply Hlong.
    + intros Hd. apply list_fmap_ext. intros _ dp _. now apply Hdouble.
Qed.

(** C10: with a Type that is neither "long" nor "double", a sum or gauge
    metric is still emitted with one data point for each input data
    point, with its times and attributes and with no value. *)
Theorem data_point_without_value (exp : Exporter) (m : Metric.t) (w : World) :
  supported m = true →
  Metric.Type_ m ≠ "long" → Metric.Type_ m ≠ "double" →
  ∃ otm w',
    createOtelMetric exp m w = (Ok (Some otm), w')
    ∧ emitted_data_points otm
      = (λ dp,
           {| metrics.StartTimeUnixNano := to_uint64 (DataPoint.StartTime dp);
              metrics.TimeUnixNano := to_uint64 (DataPoint.EndTime dp);
              metrics.Attributes :=
                attributes_of (heap w) (Metric.Attributes m);
              metrics.Value := None |})
        <$> Metric.DataPoints m
    ∧ length (emitted_data_points otm) = length (Metric.DataPoints m).
Proof.
  intros Hs Hl Hd. rewrite createOtelMetric_run.
  unfold supported in Hs. unfold metric_of.
  assert (Hnone : ∀ attrs dp,
            data_point_of (Metric.Type_ m) attrs dp
            = {| metrics.StartTimeUnixNano := to_uint64 (DataPoint.StartTime dp);
                 metrics.TimeUnixNano := to_uint64 (DataPoint.EndTime dp);
                 metrics.Attributes := attrs;
                 metrics.Value := None |}).
  { intros attrs dp. unfold data_point_of, number_value.
    apply String.eqb_neq in Hl, Hd. now rewrite Hl, Hd. }
  destruct (Metric.ContentType m =? "sum")%string.
  - eexists _, _. split; [reflexivity|]. cbn [emitted_data_points metrics.Data
      metrics.Sum_DataPoints]. unfold data_points_of.
    split; [|now rewrite length_fmap].
    apply list_fmap_ext. intros _ dp _. apply Hnone.
  - cbn [orb] in Hs. rewrite Hs.
    eexists _, _. split; [reflexivity|]. cbn [emitted_data_points metrics.Data
      metrics.Gauge_DataPoints]. unfold data_points_of.
    split; [|now rewrite length_fmap].
    apply list_fmap_ext. intros _ dp _. apply Hnone.
Qed.

(** ** The log builder *)

Lemma bind_Panic {A B} (m : M A) (f : A → M B) w msg w' :
  m w = (Panic msg, w') → (m ≫= f) w = (Panic msg, w').
Proof. intros Hm. unfold mbind, M_bind. now rewrite Hm. Qed.

Lemma createOtelLog_plain exp l w :
  Log.IsEvent l = false →
  createOtelLog exp l w
  = (Ok (log_record_of (heap w) l),
     add_events (warnings_of (heap w) (Log.Attributes l)) w).
Proof.
  intros He. unfold createOtelLog. rewrite He.
  rewrite (bind_Ok _ _ w tt w) by reflexivity.
  run_with (toKeyValueList_run (Log.Attributes l) w). reflexivity.
Qed.

Lemma createOtelLog_event exp l p w :
  Log.IsEvent l = true → Log.Attributes l = Some p →
  let h' := <[p := tagged l (deref (heap w) (Some p))]> (heap w) in
  createOtelLog exp l w
  = (Ok (log_record_of h' l),
     add_events (warnings_of h' (Some p)) {| heap := h'; trace := trace w |}).
Proof.
  intros He Hp h'. unfold createOtelLog. rewrite He, Hp.
  set (w' := {| heap := h'; trace := trace w |}).
  assert (Hassign :
    (map_assign (Some p) keyAppdIsEvent (GoString "true");;
     map_assign (Some p) keyAppdEventType (GoString (Log.TypeName l))) w
    = (Ok tt, w')).
  { unfold mbind, M_bind, map_assign. cbn [deref heap].
    rewrite lookup_insert_eq. cbn [default from_option id].
    rewrite insert_insert_eq. reflexivity. }
  rewrite (bind_Ok _ _ _ _ _ Hassign).
  run_with (toKeyValueList_run (Some p) w').
  unfold log_record_of. now rewrite Hp.
Qed.

Lemma createOtelLog_nil_event exp l w :
  Log.IsEvent l = true → Log.Attributes l = None →
  createOtelLog exp l w = (Panic "assignment to entry in nil map", w).
Proof. intros He Hn. unfold createOtelLog. now rewrite He, Hn. Qed.

Lemma deref_insert h p a : deref (<[p := a]> h) (Some p) = a.
Proof. cbn. now rewrite lookup_insert_eq. Qed.

(** C4: a log whose event flag is set on a nil mapping apart, the call
    returns a record, and that record carries appd.isevent="true" and
    appd.event.type=TypeName exactly when the log is an event or the
    caller's mapping holds both; for an event the two keys are assigned
    in the caller's mapping itself and the attributes are read from the
    mapping so changed; otherwise the heap is left as it was. *)
Theorem event_tagging (exp : Exporter) (l : Log.t) (w : World) :
  (Log.IsEvent l = true → Log.Attributes l ≠ None) →
  ∃ otl w',
    createOtelLog exp l w = (Ok otl, w')
    ∧ (let a := deref (heap w) (Log.Attributes l) in
       let isevent := common.AnyValue_StringValue "true" in
       let type := common.AnyValue_StringValue (Log.TypeName l) in
       ((common.Build_KeyValue keyAppdIsEvent isevent ∈ logs.Attributes otl
         ∧ common.Build_KeyValue keyAppdEventType type ∈ logs.Attributes otl)
        ↔ (Log.IsEvent l = true
           ∨ (supplied a keyAppdIsEvent isevent
              ∧ supplied a keyAppdEventType type)))
       ∧ (Log.IsEvent l = true →
          ∀ p, Log.Attributes l = Some p →
            heap w' = <[p := tagged l a]> (heap w)
            ∧ deref (heap w') (Log.Attributes l) = tagged l a
            ∧ logs.Attributes otl
              = attributes_of (heap w') (Log.Attributes l))
       ∧ (Log.IsEvent l = false → heap w' = heap w)).
Proof.
  intros Hnil. destruct (Log.IsEvent l) eqn:He.
  - destruct (Log.Attributes l) as [p|] eqn:Hp; [|now destruct Hnil].
    rewrite (createOtelLog_event exp l p w He Hp).
    eexists _, _. split; [reflexivity|].
    cbn [heap add_events logs.Attributes log_record_of]. rewrite Hp.
    split; [|split]; [| |discriminate].
    + split; [now left|]. intros _.
      split; apply elem_of_attributes_of; rewrite deref_insert;
        unfold tagged.
      * exists (GoString "true"). split; [|reflexivity].
        rewrite lookup_insert_ne by discriminate. apply lookup_insert_eq.
      * exists (GoString (Log.TypeName l)). split; [|reflexivity].
        apply lookup_insert_eq.
    + intros _ q [= <-]. now rewrite deref_insert.
  - rewrite (createOtelLog_plain exp l w He).
    eexists _, _. split; [reflexivity|].
    cbn [heap add_events logs.Attributes log_record_of].
    split; [|split]; [|discriminate|reflexivity].
    rewrite !elem_of_attributes_of. unfold supplied.
    split; [now right|]. intros [?|?]; [discriminate|done].
Qed.

(** C3, on the code: an event whose attribute mapping is nil makes
    [ExportLogs] panic at the first assignment of [createOtelLog]; no
    error value is returned. *)
Theorem event_with_nil_attributes_panics (exp : Exporter) (w : World) :
  ExportLogs exp [entity_with [] [login_event None] []] w
  = (Panic "assignment to entry in nil map", w).
Proof.
  unfold ExportLogs. apply bind_Panic.
  unfold buildLogsPayload. cbn [for_range entity_with Entity.Logs length
    Nat.eqb Entity.Attributes Entity.Relationships].
  apply bind_Panic.
  rewrite <- (add_events_nil w) at 1.
  run_with (toKeyValueList_run None (add_events [] w)).
  run_with (addRelationships_run exp []
              {| resource.Attributes := attributes_of (heap w) None |}
              ([] ++ warnings_of (heap w) None) w).
  rewrite warnings_of_nil. cbn [app relations_events mbind list_bind].
  rewrite add_events_nil.
  do 3 apply bind_Panic. now apply createOtelLog_nil_event.
Qed.

(** ** The payload assembler *)

Lemma bind_inv_Ok {A B} (m : M A) (f : A → M B) w b w' :
  (m ≫= f) w = (Ok b, w') →
  ∃ a w1, m w = (Ok a, w1) ∧ f a w1 = (Ok b, w').
Proof.
  unfold mbind, M_bind. destruct (m w) as [[a| |] w1]; try discriminate.
  eauto.
Qed.

Lemma for_range_skip {A S} (body : A → S → M S) (xs : list A) s w :
  Forall (λ x, ∀ s w, body x s w = (Ok s, w)) xs →
  for_range xs body s w = (Ok s, w).
Proof.
  induction 1 as [|x xs Hx _ IH]; cbn; [done|].
  now rewrite (bind_Ok _ _ _ _ _ (Hx s w)).
Qed.

Lemma filter_all_false {A} (p : A → bool) (xs : list A) :
  Forall (λ x, p x = false) xs → List.filter p xs = [].
Proof. induction 1 as [|x xs Hx _ IH]; cbn; [done|]. now rewrite Hx. Qed.

(** The blocks of a logs payload, when the builder returns. *)
Lemma buildLogsPayload_blocks exp entities w elsr w' :
  buildLogsPayload exp entities w = (Ok elsr, w') →
  length (default [] (colllogs.ResourceLogs elsr))
  = length (List.filter has_logs entities)
  ∧ Forall one_scope_logs (default [] (colllogs.ResourceLogs elsr)).
Proof.
  unfold buildLogsPayload. intros Hrun.
  refine (for_range_returns
    (λ pre s,
       length (default [] (colllogs.ResourceLogs s))
       = length (List.filter has_logs pre)
       ∧ Forall one_scope_logs (default [] (colllogs.ResourceLogs s)))
    _ entities _ [] _ _ _ _ _ Hrun); [|now split].
  clear Hrun. intros pre e s w0 s' w0' [Hlen Hall] Hrun.
  rewrite List.filter_app, length_app. cbn [List.filter]. unfold has_logs at 2.
  destruct (length (Entity.Logs e) =? 0)%nat.
  - injection Hrun as <- _. cbn. split; [lia|exact Hall].
  - rewrite <- (add_events_nil w0) in Hrun.
    rewrite (bind_Ok _ _ _ _ _
               (toKeyValueList_run (Entity.Attributes e) (add_events [] w0)))
      in Hrun.
    rewrite heap_add_events, add_events_app in Hrun.
    rewrite (bind_Ok _ _ _ _ _ (addRelationships_run exp _ _ _ w0)) in Hrun.
    apply bind_inv_Ok in Hrun as (lr & w1 & _ & Hret).
    injection Hret as <- _. cbn.
    rewrite length_app, Forall_app. cbn. split; [lia|].
    split; [exact Hall|]. constructor; [|constructor].
    eexists. split; reflexivity.
Qed.

Lemma buildLogsPayload_nothing exp entities w :
  Forall (λ e, Entity.Logs e = []) entities →
  buildLogsPayload exp entities w
  = (Ok {| colllogs.ResourceLogs := None |}, w).
Proof.
  intros Hempty. apply for_range_skip.
  eapply Forall_impl; [exact Hempty|].
  intros e He s w0. cbn beta. now rewrite He.
Qed.

Lemma no_metrics_filter entities :
  Forall (λ e, Entity.Metrics e = []) entities →
  List.filter has_metrics entities = [].
Proof.
  intros Hempty. apply filter_all_false.
  eapply Forall_impl; [exact Hempty|].
  intros e He. unfold has_metrics. now rewrite He.
Qed.

Lemma no_spans_filter entities :
  Forall (λ e, Entity.Spans e = []) entities →
  List.filter has_spans entities = [].
Proof.
  intros Hempty. apply filter_all_false.
  eapply Forall_impl; [exact Hempty|].
  intros e He. unfold has_spans. now rewrite He.
Qed.

(** C5: when no entity has telemetry of the exported kind, the export
    logs that there is nothing to send and returns nil; the trace gains
    that one log line, so the HTTP collaborator is not called.  In every
    payload the blocks are those of the entities that have telemetry of
    the kind, in order: an entity without any contributes none. *)
Theorem nothing_to_send (exp : Exporter) (entities : list Entity.t)
    (w : World) :
  (Forall (λ e, Entity.Metrics e = []) entities →
   ExportMetrics exp entities w
   = (Ok None, add_events [Logged InfoLevel "No metrics to send" []] w))
  ∧ (Forall (λ e, Entity.Logs e = []) entities →
     ExportLogs exp entities w
     = (Ok None, add_events [Logged InfoLevel "No logs to send" []] w)
     ∧ ExportEvents exp entities w
       = (Ok None, add_events [Logged InfoLevel "No logs to send" []] w))
  ∧ (Forall (λ e, Entity.Spans e = []) entities →
     ExportSpans exp entities w
     = (Ok None, add_events [Logged InfoLevel "No spans to send" []] w))
  ∧ (∃ emsr w',
       buildMetricsPayload exp entities w = (Ok emsr, w')
       ∧ default [] (collmetrics.ResourceMetrics emsr)
         = resource_metrics_of (heap w) <$> List.filter has_metrics entities)
  ∧ (∀ elsr w',
       buildLogsPayload exp entities w = (Ok elsr, w') →
       length (default [] (colllogs.ResourceLogs elsr))
       = length (List.filter has_logs entities))
  ∧ (∃ etsr w',
       buildSpansPayload exp entities w = (Ok etsr, w')
       ∧ default [] (collspans.ResourceSpans etsr)
         = resource_spans_of (heap w) <$> List.filter has_spans entities).
Proof.
  split; [|split; [|split; [|split; [|split]]]].
  - intros Hempty. unfold ExportMetrics.
    rewrite (bind_Ok _ _ _ _ _ (buildMetricsPayload_run exp entities w)).
    rewrite (no_metrics_filter _ Hempty). cbn [fmap list_fmap nilable mbind
      list_bind collmetrics.ResourceMetrics].
    now rewrite add_events_nil.
  - intros Hempty. unfold ExportEvents, ExportLogs.
    now rewrite (bind_Ok _ _ _ _ _
                   (buildLogsPayload_nothing exp entities w Hempty)).
  - intros Hempty. unfold ExportSpans.
    rewrite (bind_Ok _ _ _ _ _ (buildSpansPayload_run exp entities w)).
    rewrite (no_spans_filter _ Hempty). cbn [fmap list_fmap nilable mbind
      list_bind collspans.ResourceSpans].
    now rewrite add_events_nil.
  - eexists _, _. split; [apply buildMetricsPayload_run|].
    cbn [collmetrics.ResourceMetrics]. apply default_nilable.
  - intros elsr w' Hrun.
    now apply (buildLogsPayload_blocks exp entities w elsr w').
  - eexists _, _. split; [apply buildSpansPayload_run|].
    cbn [collspans.ResourceSpans]. apply default_nilable.
Qed.

(** C7: every resource block of a metrics, logs (hence events) or spans
    payload carries exactly one scope, of name "sample-datagen" and
    version "0.0.1". *)
Theorem scope_is_constant (exp : Exporter) (entities : list Entity.t)
    (w : World) :
  the_scope = getInstrumentationScope
  ∧ (∃ emsr w',
       buildMetricsPayload exp entities w = (Ok emsr, w')
       ∧ Forall one_scope_metrics
           (default [] (collmetrics.ResourceMetrics emsr)))
  ∧ (∀ elsr w',
       buildLogsPayload exp entities w = (Ok elsr, w') →
       Forall one_scope_logs (default [] (colllogs.ResourceLogs elsr)))
  ∧ (∃ etsr w',
       buildSpansPayload exp entities w = (Ok etsr, w')
       ∧ Forall one_scope_spans
           (default [] (collspans.ResourceSpans etsr))).
Proof.
  split; [reflexivity|]. split; [|split].
  - eexists _, _. split; [apply buildMetricsPayload_run|].
    cbn [collmetrics.ResourceMetrics]. rewrite default_nilable.
    apply Forall_fmap, Forall_forall. intros e _.
    eexists. split; reflexivity.
  - intros elsr w' Hrun.
    now apply (buildLogsPayload_blocks exp entities w elsr w').
  - eexists _, _. split; [apply buildSpansPayload_run|].
    cbn [collspans.ResourceSpans]. rewrite default_nilable.
    apply Forall_fmap, Forall_forall. intros e _.
    eexists. split; reflexivity.
Qed.

(** ** The transport driver *)

Lemma dumpPayload_run m format w :
  dumpPayload m format w
  = match dump_text m format with
    | inl s => (Ok tt, add_events [Dumped s] w)
    | inr err =>
        (Exit 1,
         add_events
           [Logged FatalLevel
              ("Unable to marshal MELT data to " +:+ format +:+
               " format: " +:+ error_text err) []] w)
    end.
Proof.
  unfold dumpPayload, dump_text.
  destruct (format =? DumpFormatHuman)%string; [reflexivity|].
  destruct (format =? DumpFormatText)%string.
  { now destruct (prototext_Marshal m). }
  destruct (format =? DumpFormatJson)%string.
  { now destruct (json_MarshalIndent m output_JsonIndent). }
  destruct (format =? DumpFormatYaml)%string.
  { now destruct (yaml_Marshal m). }
  destruct (format =? DumpFormatHex)%string.
  { now destruct (proto_Marshal m). }
  reflexivity.
Qed.

(** C6, as the code has it: a dry run never calls the HTTP
    collaborator.  When protobuf marshaling fails the call returns the
    wrapped error and nothing is dumped.  When it succeeds: without a
    dump function the call returns nil; with one, the payload is
    rendered in the dump format, and either the dump function is called
    exactly once with the text and the call returns nil, or the
    rendering fails and the process exits before any dump. *)
Theorem dry_run_purity (exp : Exporter) (path : string) (m : ProtoMessage)
    (w : World) :
  DryRun exp = true →
  ∃ r w',
    exportHTTP exp path m w = (r, w')
    ∧ List.filter is_Posted (new_events w w') = []
    ∧ match proto_Marshal m with
      | inr err =>
          r = Ok (Some (wrapError
                ("failed to marshal MELT data: " +:+ error_text err) err))
          ∧ w' = w
      | inl _ =>
          if DumpFunc exp then
            match dump_text m (DumpFormat exp) with
            | inl s =>
                r = Ok None ∧ w' = add_events [Dumped s] w
                ∧ length (List.filter is_Dumped (new_events w w')) = 1%nat
            | inr _ =>
                r = Exit 1
                ∧ List.filter is_Dumped (new_events w w') = []
            end
          else r = Ok None ∧ w' = w
      end.
Proof.
  intros Hdry. unfold exportHTTP. rewrite Hdry. cbn [negb].
  destruct (proto_Marshal m) as [data|err].
  - destruct (DumpFunc exp).
    + unfold mbind at 1, M_bind at 1. rewrite dumpPayload_run.
      destruct (dump_text m (DumpFormat exp)) as [s|e].
      * eexists _, _. split; [reflexivity|].
        unfold new_events. rewrite new_events_add_events. now cbn.
      * eexists _, _. split; [reflexivity|].
        unfold new_events. rewrite new_events_add_events. now cbn.
    + eexists _, _. split; [reflexivity|].
      unfold new_events. rewrite drop_all. now cbn.
  - eexists _, _. split; [reflexivity|].
    unfold new_events. rewrite drop_all. now cbn.
Qed.

(** ** Further results: the attribute coercer *)

Lemma coerce_None v : coerce v = None ↔ v = GoNil.
Proof. split; [|now intros ->]. now destruct v as [|b|[] n|[] n|k f|s|k r]. Qed.

Lemma coerce_entry_key e kv : coerce_entry e = Some kv → common.Key kv = e.1.
Proof.
  unfold coerce_entry. destruct (coerce e.2); [|discriminate].
  now intros [= <-].
Qed.

Lemma omap_keys_sublist (es : list (string * GoValue)) :
  sublist (common.Key <$> omap coerce_entry es) (es.*1).
Proof.
  induction es as [|e es IH]; cbn; [constructor|].
  destruct (coerce_entry e) as [kv|] eqn:He; cbn.
  - rewrite (coerce_entry_key _ _ He). now constructor.
  - now constructor.
Qed.

Lemma coerce_or_warn (e : string * GoValue) :
  (is_Some (coerce_entry e) ∧ warn_entry e = None)
  ∨ (coerce_entry e = None ∧ is_Some (warn_entry e)).
Proof.
  destruct e as [k v]. unfold coerce_entry, warn_entry. cbn.
  destruct v as [|b|[] n|[] n|kf f|s|ko r]; cbn; eauto.
Qed.

Lemma omap_split_length (es : list (string * GoValue)) :
  (length (omap coerce_entry es) + length (omap warn_entry es))%nat
  = length es.
Proof.
  induction es as [|e es IH]; cbn; [done|].
  destruct (coerce_or_warn e) as [[[kv ->] ->]|[-> [ev ->]]]; cbn; lia.
Qed.

Lemma warnings_are_warnings h a :
  Forall (λ e, is_warning e = true) (warnings_of h a).
Proof.
  unfold warnings_of. apply Forall_forall. intros e He.
  apply list_elem_of_omap in He as [[k v] [_ Hw]].
  unfold warn_entry in Hw. cbn in Hw. destruct (is_nil v); [|discriminate].
  now injection Hw as <-.
Qed.

(** X1: the coercer never fails and never writes: it returns one attribute
    for each entry of the mapping whose value is not nil, no key twice, and
    logs one warning for each entry whose value is nil. *)
Theorem coercer_keys (a : mapref) (w : World) :
  ∃ attribs w',
    toKeyValueList a w = (Ok attribs, w')
    ∧ heap w' = heap w
    ∧ NoDup (common.Key <$> attribs)
    ∧ (∀ k, k ∈ common.Key <$> attribs
            ↔ ∃ v, deref (heap w) a !! k = Some v ∧ v ≠ GoNil)
    ∧ Forall (λ e, is_warning e = true) (new_events w w')
    ∧ (length attribs + length (new_events w w'))%nat
      = size (deref (heap w) a).
Proof.
  rewrite toKeyValueList_run. eexists _, _. split; [reflexivity|].
  unfold new_events. rewrite new_events_add_events.
  split; [reflexivity|]. split; [|split; [|split]].
  - unfold attributes_of.
    eapply sublist_NoDup; [|apply omap_keys_sublist].
    rewrite range_entries_perm. apply NoDup_fst_map_to_list.
  - intros k. rewrite list_elem_of_fmap. split.
    + intros [[k' val] [-> Hin]]. cbn.
      apply elem_of_attributes_of in Hin as (v & Hv & Hc).
      exists v. split; [exact Hv|]. intros ->. discriminate.
    + intros (v & Hv & Hnil).
      destruct (coerce v) as [val|] eqn:Hc.
      * exists (common.Build_KeyValue k val). split; [reflexivity|].
        apply elem_of_attributes_of. eauto.
      * now apply coerce_None in Hc.
  - apply warnings_are_warnings.
  - unfold attributes_of, warnings_of. rewrite omap_split_length.
    rewrite range_entries_perm. apply length_map_to_list.
Qed.

(** X2: an unsigned attribute of a kind that the switch lists is emitted as
    the int64 with the same 64 bits: the value itself below 2^63, and the
    negative value [n - 2^64] from 2^63 on. *)
Theorem unsigned_attribute_reinterpreted (a : mapref) (w : World)
    (k : string) (kind : UnsignedKind) (n : Z) :
  deref (heap w) a !! k = Some (GoUnsigned kind n) →
  kind ≠ KUint16 → kind ≠ KUintptr →
  0 <= n < 2 ^ 64 →
  ∃ attribs w' v,
    toKeyValueList a w = (Ok attribs, w')
    ∧ common.Build_KeyValue k (common.AnyValue_IntValue v) ∈ attribs
    ∧ to_uint64 v = n
    ∧ (n < 2 ^ 63 → v = n)
    ∧ (2 ^ 63 <= n → v = n - 2 ^ 64 ∧ v < 0).
Proof.
  intros Hk H16 Hptr Hn. rewrite toKeyValueList_run.
  eexists _, _, (to_int64 n). split; [reflexivity|]. split.
  - apply elem_of_attributes_of. exists (GoUnsigned kind n).
    split; [exact Hk|]. now destruct kind.
  - unfold to_uint64, to_int64.
    destruct (Z.lt_ge_cases n (2 ^ 63)) as [Hlt|Hge].
    + rewrite (Z.mod_small (n + 2 ^ 63)) by lia.
      rewrite Z.mod_small by lia. lia.
    + replace ((n + 2 ^ 63) mod 2 ^ 64) with (n - 2 ^ 63).
      2:{ apply (Z.mod_unique _ _ 1); lia. }
      replace ((n - 2 ^ 63 - 2 ^ 63) mod 2 ^ 64) with n.
      2:{ apply (Z.mod_unique _ _ (-1)); lia. }
      lia.
Qed.

(** ** Further results: metrics and spans *)

(** X4: a gauge is built without its temporality and its monotonic flag:
    other values of the two fields give the same metric and the same log
    lines. *)
Theorem gauge_ignores_sum_fields (exp : Exporter) (m : Metric.t)
    (temporality : string) (monotonic : bool) (w : World) :
  Metric.ContentType m = "gauge" →
  createOtelMetric exp (with_sum_fields m temporality monotonic) w
  = createOtelMetric exp m w.
Proof.
  intros Hg. rewrite !createOtelMetric_run.
  unfold metric_of, metric_events, supported, data_points_of.
  cbn [with_sum_fields Metric.ContentType Metric.TypeName Metric.Type_
       Metric.Attributes Metric.DataPoints].
  now rewrite Hg.
Qed.

(** X5: when the span builder returns, it has written nothing to the
    heap, the events and the links of the span keep their number and
    their order, and the status is set exactly when the span has one.
    (A span, an event or a link that is a nil pointer makes the code
    panic; the lists of the model hold none.) *)
Theorem span_keeps_order (exp : Exporter) (t : Span.t) (w : World)
    (ots : spans.Span) (w' : World) :
  createOtelSpan exp t w = (Ok ots, w') →
  heap w' = heap w
  ∧ spans.Event_Name <$> spans.Events ots
    = SpanEvent.Name <$> Span.Events t
  ∧ spans.Event_TimeUnixNano <$> spans.Events ots
    = (λ e, to_uint64 (SpanEvent.Timestamp e)) <$> Span.Events t
  ∧ spans.Link_TraceId <$> spans.Links ots
    = SpanLink.TraceID <$> Span.Links t
  ∧ spans.Link_SpanId <$> spans.Links ots
    = SpanLink.SpanID <$> Span.Links t
  ∧ (spans.Status_ ots = None ↔ Span.Status t = None).
Proof.
  pose proof (createOtelSpan_run exp t [] w) as Hrun.
  rewrite add_events_nil in Hrun. rewrite Hrun. intros [= <- <-].
  split; [reflexivity|].
  unfold span_of. cbn [spans.Events spans.Links spans.Status_].
  rewrite <- !list_fmap_compose.
  repeat split; try reflexivity; now destruct (Span.Status t).
Qed.

Lemma strip_relationships_spans h (entities : list Entity.t) :
  resource_spans_of h <$> List.filter has_spans (strip_relationships <$> entities)
  = resource_spans_of h <$> List.filter has_spans entities
  ∧ List.filter has_spans (strip_relationships <$> entities)
    ≫= resource_spans_events h
    = List.filter has_spans entities ≫= resource_spans_events h.
Proof.
  induction entities as [|e es [IH1 IH2]]; [done|].
  cbn [fmap list_fmap List.filter].
  change (has_spans (strip_relationships e)) with (has_spans e).
  destruct (has_spans e); [|done].
  cbn [fmap list_fmap mbind list_bind]. cbn in IH1, IH2.
  now rewrite IH1, IH2.
Qed.

(** X6: a spans payload carries no relationships: with the relationships of
    every entity taken away the builder returns the same request and logs
    the same lines. *)
Theorem spans_carry_no_relationships (exp : Exporter)
    (entities : list Entity.t) (w : World) :
  buildSpansPayload exp (strip_relationships <$> entities) w
  = buildSpansPayload exp entities w.
Proof.
  rewrite !buildSpansPayload_run.
  destruct (strip_relationships_spans (heap w) entities) as [-> ->].
  reflexivity.
Qed.

Lemma filter_nil_all_false {A} (p : A → bool) (xs : list A) :
  List.filter p xs = [] ↔ Forall (λ x, p x = false) xs.
Proof.
  split; [|apply filter_all_false].
  induction xs as [|x xs IH]; cbn; [constructor|].
  destruct (p x) eqn:Hp; [discriminate|]. intros Hf.
  constructor; [exact Hp|now apply IH].
Qed.

Lemma nilable_None {A} (l : list A) : nilable l = None ↔ l = [].
Proof. now destruct l. Qed.

Lemma fmap_nil_iff {A B} (f : A → B) (l : list A) : f <$> l = [] ↔ l = [].
Proof. split; [apply fmap_nil_inv|now intros ->]. Qed.

Lemma length_zero_nil {A} (l : list A) :
  negb (length l =? 0)%nat = false ↔ l = [].
Proof. now destruct l. Qed.

(** X7: when the metrics builder, or the spans builder, returns, it has
    written nothing to the heap, and the request is empty (a nil
    sequence, on which the export sends nothing) exactly when no entity
    has a metric, or a span.  (An entity, a metric or a span that is a nil
    pointer makes the code panic; the lists of the model hold none.) *)
Theorem request_is_nil_when_nothing_to_send (exp : Exporter)
    (entities : list Entity.t) (w : World) :
  (∀ emsr w',
     buildMetricsPayload exp entities w = (Ok emsr, w') →
     heap w' = heap w
     ∧ (collmetrics.ResourceMetrics emsr = None
        ↔ Forall (λ e, Entity.Metrics e = []) entities))
  ∧ (∀ etsr w',
       buildSpansPayload exp entities w = (Ok etsr, w') →
       heap w' = heap w
       ∧ (collspans.ResourceSpans etsr = None
          ↔ Forall (λ e, Entity.Spans e = []) entities)).
Proof.
  split.
  - intros emsr w'. rewrite buildMetricsPayload_run. intros [= <- <-].
    split; [reflexivity|].
    cbn [collmetrics.ResourceMetrics].
    rewrite nilable_None, fmap_nil_iff, filter_nil_all_false.
    apply Forall_iff. intros e. apply length_zero_nil.
  - intros etsr w'. rewrite buildSpansPayload_run. intros [= <- <-].
    split; [reflexivity|].
    cbn [collspans.ResourceSpans].
    rewrite nilable_None, fmap_nil_iff, filter_nil_all_false.
    apply Forall_iff. intros e. apply length_zero_nil.
Qed.

(** ** Further results: logs and events *)

Lemma log_record_of_record h l : record_of l (log_record_of h l).
Proof.
  unfold record_of, log_record_of. cbn. repeat split.
  destruct (String.eqb_spec (Log.Severity l) "") as [->|]; reflexivity.
Qed.

Lemma createOtelLog_record exp l w otl w' :
  createOtelLog exp l w = (Ok otl, w') → record_of l otl.
Proof.
  destruct (Log.IsEvent l) eqn:He.
  - destruct (Log.Attributes l) as [p|] eqn:Hp.
    + rewrite (createOtelLog_event exp l p w He Hp).
      intros [= <- _]. apply log_record_of_record.
    + now rewrite (createOtelLog_nil_event exp l w He Hp).
  - rewrite (createOtelLog_plain exp l w He).
    intros [= <- _]. apply log_record_of_record.
Qed.

Lemma logs_loop_records exp (ls : list Log.t) w lr w' :
  for_range ls (λ l lr,
    otl ← createOtelLog exp l; mret (lr ++ [otl])) [] w = (Ok lr, w') →
  Forall2 record_of ls lr.
Proof.
  intros Hrun.
  refine (for_range_returns (λ pre lr, Forall2 record_of pre lr)
            _ ls _ [] _ _ _ _ _ Hrun); [|constructor].
  clear. intros pre l lr w lr' w' HR Hbody.
  apply bind_inv_Ok in Hbody as (otl & w1 & Hlog & [= <- _]).
  apply Forall2_app; [exact HR|].
  constructor; [|constructor]. eapply createOtelLog_record, Hlog.
Qed.

(** X8: when the logs builder returns, its blocks are those of the entities
    that have logs, in order, and each block holds one record for each
    log of its entity, in order, with the body, the time and the severity
    of that log. *)
Theorem logs_keep_order (exp : Exporter) (entities : list Entity.t)
    (w : World) (elsr : colllogs.ExportLogsServiceRequest) (w' : World) :
  buildLogsPayload exp entities w = (Ok elsr, w') →
  Forall2
    (λ e rl, ∃ ill,
       logs.RL_ScopeLogs rl = [ill]
       ∧ Forall2 record_of (Entity.Logs e) (logs.LogRecords ill))
    (List.filter has_logs entities)
    (default [] (colllogs.ResourceLogs elsr)).
Proof.
  unfold buildLogsPayload. intros Hrun.
  refine (for_range_returns
    (λ pre s,
       Forall2
         (λ e rl, ∃ ill,
            logs.RL_ScopeLogs rl = [ill]
            ∧ Forall2 record_of (Entity.Logs e) (logs.LogRecords ill))
         (List.filter has_logs pre)
         (default [] (colllogs.ResourceLogs s)))
    _ entities _ [] _ _ _ _ _ Hrun); [|constructor].
  clear Hrun. intros pre e s w0 s' w0' HR Hbody.
  rewrite List.filter_app. cbn [List.filter]. unfold has_logs at 2.
  destruct (length (Entity.Logs e) =? 0)%nat.
  - injection Hbody as <- _. cbn. now rewrite app_nil_r.
  - rewrite <- (add_events_nil w0) in Hbody.
    rewrite (bind_Ok _ _ _ _ _
               (toKeyValueList_run (Entity.Attributes e) (add_events [] w0)))
      in Hbody.
    rewrite heap_add_events, add_events_app in Hbody.
    rewrite (bind_Ok _ _ _ _ _ (addRelationships_run exp _ _ _ w0)) in Hbody.
    apply bind_inv_Ok in Hbody as (lr & w1 & Hloop & [= <- _]). cbn.
    apply Forall2_app; [exact HR|]. constructor; [|constructor].
    eexists. split; [reflexivity|]. cbn.
    eapply logs_loop_records, Hloop.
Qed.

Lemma tagged_idempotent l a : tagged l (tagged l a) = tagged l a.
Proof.
  unfold tagged. apply map_eq. intros k.
  destruct (decide (keyAppdEventType = k)) as [<-|Ht].
  - now rewrite !lookup_insert_eq.
  - rewrite !(lookup_insert_ne _ keyAppdEventType) by exact Ht.
    destruct (decide (keyAppdIsEvent = k)) as [<-|Hi].
    + now rewrite !lookup_insert_eq.
    + now rewrite !lookup_insert_ne by assumption.
Qed.

(** X11: the record of an event holds the caller's attributes under every
    other key, and under the two reserved keys only the tags: a value
    that the caller had put there is replaced. *)
Theorem event_tags_replace_supplied (exp : Exporter) (l : Log.t)
    (p : positive) (w : World) :
  Log.IsEvent l = true → Log.Attributes l = Some p →
  ∃ otl w',
    createOtelLog exp l w = (Ok otl, w')
    ∧ (∀ val,
         common.Build_KeyValue keyAppdIsEvent val ∈ logs.Attributes otl
         ↔ val = common.AnyValue_StringValue "true")
    ∧ (∀ val,
         common.Build_KeyValue keyAppdEventType val ∈ logs.Attributes otl
         ↔ val = common.AnyValue_StringValue (Log.TypeName l))
    ∧ (∀ k val,
         k ≠ keyAppdIsEvent → k ≠ keyAppdEventType →
         common.Build_KeyValue k val ∈ logs.Attributes otl
         ↔ supplied (deref (heap w) (Some p)) k val).
Proof.
  intros He Hp. rewrite (createOtelLog_event exp l p w He Hp).
  eexists _, _. split; [reflexivity|].
  cbn [logs.Attributes log_record_of]. rewrite Hp.
  split; [|split].
  - intros val. rewrite elem_of_attributes_of, deref_insert. unfold tagged.
    rewrite lookup_insert_ne by discriminate. rewrite lookup_insert_eq.
    split.
    + intros (v & [= <-] & [= <-]). reflexivity.
    + intros ->. eauto.
  - intros val. rewrite elem_of_attributes_of, deref_insert. unfold tagged.
    rewrite lookup_insert_eq. split.
    + intros (v & [= <-] & [= <-]). reflexivity.
    + intros ->. eauto.
  - intros k val Hi Ht. rewrite elem_of_attributes_of, deref_insert.
    unfold tagged, supplied. now rewrite !lookup_insert_ne by congruence.
Qed.

(** ** Further results: the transport driver *)

Lemma hintAboutPermissions_run err w :
  ∃ es,
    hintAboutPermissions err w = (Ok tt, add_events es w)
    ∧ Forall (λ e, is_warning e = true) es
    ∧ length es = if hint_due err then 1%nat else 0%nat.
Proof.
  unfold hintAboutPermissions, hint_due.
  destruct (as_HttpStatusError err) as [c|].
  - destruct (c =? http_StatusForbidden); cbn [andb].
    + destruct (negb (config_AuthMethod =? config_AuthMethodAgentPrincipal)%string).
      * eexists [_]. split; [reflexivity|]. split; [|reflexivity].
        now constructor.
      * exists []. rewrite add_events_nil. now split.
    + exists []. rewrite add_events_nil. now split.
  - exists []. rewrite add_events_nil. now split.
Qed.

(** What [exportHTTP] does before it sends: nothing, or one dump. *)
Lemma exportHTTP_before_send exp m :
  (DumpFunc exp = true → ∃ s, dump_text m (DumpFormat exp) = inl s) →
  ∀ w, ∃ des,
    (if DumpFunc exp then dumpPayload m (DumpFormat exp) else mret tt) w
    = (Ok tt, add_events des w)
    ∧ Forall (λ e, is_Dumped e = true) des.
Proof.
  intros Hdump w. destruct (DumpFunc exp).
  - destruct (Hdump eq_refl) as [s Hs]. rewrite dumpPayload_run, Hs.
    exists [Dumped s]. split; [reflexivity|]. now constructor.
  - exists []. rewrite add_events_nil. now split.
Qed.

Lemma filter_dumped_not_posted des :
  Forall (λ e, is_Dumped e = true) des → List.filter is_Posted des = [].
Proof.
  intros Hd. apply filter_all_false. eapply Forall_impl; [exact Hd|].
  now intros [].
Qed.

Lemma filter_dumped_not_warning des :
  Forall (λ e, is_Dumped e = true) des → List.filter is_warning des = [].
Proof.
  intros Hd. apply filter_all_false. eapply Forall_impl; [exact Hd|].
  now intros [].
Qed.

Lemma filter_warnings es :
  Forall (λ e, is_warning e = true) es →
  List.filter is_warning es = es ∧ List.filter is_Posted es = [].
Proof.
  induction 1 as [|e es He _ [IH1 IH2]]; cbn; [done|].
  rewrite He, IH1, IH2. now destruct e as [[]| |].
Qed.

(** X12: a transport error: outside a dry run, when the HTTP collaborator
    fails, it was called once, at [data/v1/<path>] with the marshalled
    bytes, and [exportHTTP] returns its error as it is; one warning is
    logged before that when the error carries the status 403 and the
    profile is not an agent principal, and none otherwise. *)
Theorem transport_error_is_returned (exp : Exporter) (path : string)
    (m : ProtoMessage) (w : World) (data : bytes) (err : error)
    (options : api.Options) :
  DryRun exp = false →
  proto_Marshal m = inl data →
  (DumpFunc exp = true → ∃ s, dump_text m (DumpFormat exp) = inl s) →
  api_HTTPPost ("data/v1/" +:+ path) data request_options
  = (Some err, options) →
  ∃ w',
    exportHTTP exp path m w = (Ok (Some err), w')
    ∧ heap w' = heap w
    ∧ List.filter is_Posted (new_events w w')
      = [Posted ("data/v1/" +:+ path) data]
    ∧ length (List.filter is_warning (new_events w w'))
      = if hint_due err then 1%nat else 0%nat.
Proof.
  intros Hdry Hm Hdump Hpost. unfold exportHTTP. rewrite Hm, Hdry.
  cbn [negb].
  destruct (exportHTTP_before_send exp m Hdump w) as (des & Hbefore & Hdes).
  rewrite (bind_Ok _ _ _ _ _ Hbefore).
  rewrite (bind_Ok _ _ _ _ _ (emit_run _ _)), add_events_app.
  fold request_options. rewrite Hpost.
  destruct (hintAboutPermissions_run err
              (add_events (des ++ [Posted ("data/v1/" +:+ path) data]) w))
    as (hes & Hhint & Hwarn & Hlen).
  rewrite (bind_Ok _ _ _ _ _ Hhint), add_events_app.
  eexists. split; [reflexivity|]. split; [reflexivity|].
  unfold new_events. rewrite new_events_add_events.
  destruct (filter_warnings hes Hwarn) as [Hw1 Hw2].
  rewrite !List.filter_app, Hw1, Hw2.
  rewrite (filter_dumped_not_posted des Hdes).
  rewrite (filter_dumped_not_warning des Hdes). cbn.
  split; [reflexivity|exact Hlen].
Qed.

(** X13: an accepted request: outside a dry run, when the HTTP collaborator
    succeeds, it was called once, at [data/v1/<path>] with the marshalled
    bytes; [exportHTTP] then logs the first value of the response header
    Traceresponse (the empty string without that header) and returns
    nil, but it panics when the header is there without any value. *)
Theorem accepted_request_is_logged (exp : Exporter) (path : string)
    (m : ProtoMessage) (w : World) (data : bytes) (options : api.Options) :
  DryRun exp = false →
  proto_Marshal m = inl data →
  (DumpFunc exp = true → ∃ s, dump_text m (DumpFormat exp) = inl s) →
  api_HTTPPost ("data/v1/" +:+ path) data request_options
  = (None, options) →
  ∃ r w',
    exportHTTP exp path m w = (r, w')
    ∧ List.filter is_Posted (new_events w w')
      = [Posted ("data/v1/" +:+ path) data]
    ∧ match api.ResponseHeaders options !! "Traceresponse" with
      | Some [] => r = Panic "index out of range [0] with length 0"
      | Some (tr :: _) =>
          r = Ok None ∧ last (new_events w w') = Some (sent_line path tr)
      | None =>
          r = Ok None ∧ last (new_events w w') = Some (sent_line path "")
      end.
Proof.
  intros Hdry Hm Hdump Hpost. unfold exportHTTP. rewrite Hm, Hdry.
  cbn [negb].
  destruct (exportHTTP_before_send exp m Hdump w) as (des & Hbefore & Hdes).
  rewrite (bind_Ok _ _ _ _ _ Hbefore).
  rewrite (bind_Ok _ _ _ _ _ (emit_run _ _)), add_events_app.
  fold request_options. rewrite Hpost.
  unfold new_events.
  destruct (api.ResponseHeaders options !! "Traceresponse") as [[|tr trs]|].
  - eexists _, _. split; [reflexivity|].
    rewrite new_events_add_events, List.filter_app.
    rewrite (filter_dumped_not_posted des Hdes). now cbn.
  - eexists _, _. split; [reflexivity|].
    cbn [mbind M_bind mret M_ret emit add_events trace heap].
    rewrite <- !app_assoc, drop_app_length.
    split; [|split; [reflexivity|]].
    + rewrite !List.filter_app, (filter_dumped_not_posted des Hdes).
      reflexivity.
    + rewrite app_assoc. apply last_snoc.
  - eexists _, _. split; [reflexivity|].
    cbn [mbind M_bind mret M_ret emit add_events trace heap].
    rewrite <- !app_assoc, drop_app_length.
    split; [|split; [reflexivity|]].
    + rewrite !List.filter_app, (filter_dumped_not_posted des Hdes).
      reflexivity.
    + rewrite app_assoc. apply last_snoc.
Qed.

(** X14: the dump never returns an error: the writer is called once, or the
    process exits after one fatal log line and the writer is not called.
    A format that is none of the five is no error either: the writer is
    called with the empty string. *)
Theorem dump_outcome (m : ProtoMessage) (format : string) (w : World) :
  ((∃ s, dumpPayload m format w = (Ok tt, add_events [Dumped s] w))
   ∨ (∃ msg,
        dumpPayload m format w
        = (Exit 1, add_events [Logged FatalLevel msg []] w)))
  ∧ (format ∉ [DumpFormatHuman; DumpFormatText; DumpFormatJson;
               DumpFormatYaml; DumpFormatHex] →
     dumpPayload m format w = (Ok tt, add_events [Dumped ""] w)).
Proof.
  rewrite dumpPayload_run. split.
  - destruct (dump_text m format); eauto.
  - intros Hnot. unfold dump_text.
    repeat match goal with
    | |- context [(format =? ?f)%string] =>
        destruct (String.eqb_spec format f) as [->|_];
        [exfalso; apply Hnot; set_solver|]
    end.
    reflexivity.
Qed.

(** ** Further results: calls of the HTTP collaborator *)

Lemma posts_ret {A} (P : list event → Prop) (a : A) : P [] → posts P (mret a).
Proof.
  intros HP w r w' [= <- <-]. exists []. now rewrite app_nil_r.
Qed.

Lemma posts_weaken {A} (P : list event → Prop) (m : M A) :
  P [] → posts no_post m → posts P m.
Proof.
  intros HP Hm w r w' Hrun. destruct (Hm w r w' Hrun) as (es & Ht & Hq).
  exists es. split; [exact Ht|]. unfold no_post in Hq. now rewrite Hq.
Qed.

(** Nothing is posted before the rest runs. *)
Lemma posts_bind {A B} (P : list event → Prop) (m : M A) (f : A → M B) :
  P [] → posts no_post m → (∀ a, posts P (f a)) → posts P (m ≫= f).
Proof.
  intros HP Hm Hf w r w' Hrun. unfold mbind, M_bind in Hrun.
  destruct (m w) as [[a| |] w1] eqn:Hmw;
    destruct (Hm w _ w1 Hmw) as (es1 & Ht1 & Hq); unfold no_post in Hq.
  - destruct (Hf a w1 r w' Hrun) as (es2 & Ht2 & HP2).
    exists (es1 ++ es2). rewrite Ht2, Ht1, app_assoc. split; [done|].
    rewrite List.filter_app, Hq. exact HP2.
  - injection Hrun as <- <-. exists es1. split; [done|]. now rewrite Hq.
  - injection Hrun as <- <-. exists es1. split; [done|]. now rewrite Hq.
Qed.

(** Nothing is posted after the first part ran. *)
Lemma posts_bind_rest {A B} (P : list event → Prop) (m : M A) (f : A → M B) :
  posts P m → (∀ a, posts no_post (f a)) → posts P (m ≫= f).
Proof.
  intros Hm Hf w r w' Hrun. unfold mbind, M_bind in Hrun.
  destruct (m w) as [[a| |] w1] eqn:Hmw;
    destruct (Hm w _ w1 Hmw) as (es1 & Ht1 & HP1).
  - destruct (Hf a w1 r w' Hrun) as (es2 & Ht2 & Hq). unfold no_post in Hq.
    exists (es1 ++ es2). rewrite Ht2, Ht1, app_assoc. split; [done|].
    rewrite List.filter_app, Hq, app_nil_r. exact HP1.
  - injection Hrun as <- <-. eauto.
  - injection Hrun as <- <-. eauto.
Qed.

Lemma posts_for_range {A S} (body : A → S → M S) (xs : list A) :
  (∀ x s, posts no_post (body x s)) →
  ∀ s, posts no_post (for_range xs body s).
Proof.
  intros Hbody. induction xs as [|x xs IH]; intros s; cbn.
  - now apply posts_ret.
  - apply posts_bind; [done|apply Hbody|apply IH].
Qed.

Lemma posts_logged {A} (r : result A) (es : list event) (m : M A) :
  (∀ w, m w = (r, add_events es w)) →
  Forall (λ e, is_Logged e = true) es → posts no_post m.
Proof.
  intros Hm Hes w r' w' Hrun. rewrite Hm in Hrun. injection Hrun as <- <-.
  exists es. split; [reflexivity|]. apply filter_all_false.
  eapply Forall_impl; [exact Hes|]. now intros [].
Qed.

Lemma posts_log_line {A} lv msg fields (k : M A) :
  posts no_post k → posts no_post (emit (Logged lv msg fields);; k).
Proof.
  intros Hk. apply posts_bind; [done| |intros _; exact Hk].
  eapply (posts_logged (Ok tt) [_]); [intros w; apply emit_run|].
  now constructor.
Qed.

Lemma posts_toKeyValueList a : posts no_post (toKeyValueList a).
Proof.
  intros w r w' Hrun. rewrite toKeyValueList_run in Hrun.
  injection Hrun as <- <-. eexists. split; [reflexivity|].
  apply filter_warnings, warnings_are_warnings.
Qed.

Lemma posts_map_assign r k v : posts no_post (map_assign r k v).
Proof.
  intros w res w' Hrun. exists []. rewrite app_nil_r.
  destruct r as [p|]; injection Hrun as <- <-; now split.
Qed.

Lemma posts_createOtelMetric exp m : posts no_post (createOtelMetric exp m).
Proof.
  unfold createOtelMetric.
  destruct (Metric.ContentType m =? "sum")%string.
  { apply posts_bind; [done|apply posts_toKeyValueList|].
    intros a. now apply posts_ret. }
  destruct (Metric.ContentType m =? "gauge")%string.
  { apply posts_bind; [done|apply posts_toKeyValueList|].
    intros a. now apply posts_ret. }
  apply posts_log_line. now apply posts_ret.
Qed.

Lemma posts_createOtelLog exp l : posts no_post (createOtelLog exp l).
Proof.
  unfold createOtelLog. apply posts_bind; [done| |intros _].
  - destruct (Log.IsEvent l); [|now apply posts_ret].
    apply posts_bind; [done|apply posts_map_assign|].
    intros _. apply posts_map_assign.
  - apply posts_bind; [done|apply posts_toKeyValueList|].
    intros a. now apply posts_ret.
Qed.

Lemma posts_createOtelSpan exp t : posts no_post (createOtelSpan exp t).
Proof.
  unfold createOtelSpan.
  apply posts_bind; [done|apply posts_toKeyValueList|intros attributes].
  apply posts_bind; [done| |intros events].
  { apply posts_for_range. intros e acc.
    apply posts_bind; [done|apply posts_toKeyValueList|].
    intros a. now apply posts_ret. }
  apply posts_bind; [done| |intros links; now apply posts_ret].
  apply posts_for_range. intros l acc.
  apply posts_bind; [done|apply posts_toKeyValueList|].
  intros a. now apply posts_ret.
Qed.

Lemma posts_addRelationships exp rels r :
  posts no_post (addRelationships exp rels r).
Proof.
  unfold addRelationships.
  destruct (0 <? length rels)%nat; [|now apply posts_ret].
  apply posts_bind; [done| |intros vs; now apply posts_ret].
  apply posts_for_range. intros rel acc.
  apply posts_bind; [done|apply posts_toKeyValueList|].
  intros a. now apply posts_ret.
Qed.

Lemma posts_addRelationshipsToMetrics exp rels rm :
  posts no_post (addRelationshipsToMetrics exp rels rm).
Proof.
  unfold addRelationshipsToMetrics.
  destruct (0 <? length rels)%nat; [|now apply posts_ret].
  apply posts_bind; [done| |intros vs; now apply posts_ret].
  apply posts_for_range. intros rel acc.
  apply posts_bind; [done|apply posts_toKeyValueList|].
  intros a. now apply posts_ret.
Qed.

Lemma posts_buildMetricsPayload exp entities :
  posts no_post (buildMetricsPayload exp entities).
Proof.
  apply posts_for_range. intros e s.
  destruct (length (Entity.Metrics e) =? 0)%nat; [now apply posts_ret|].
  apply posts_bind; [done|apply posts_toKeyValueList|intros attrs].
  apply posts_bind; [done|apply posts_addRelationshipsToMetrics|intros rm].
  apply posts_bind; [done| |intros ml; now apply posts_ret].
  apply posts_for_range. intros m acc.
  apply posts_bind; [done|apply posts_createOtelMetric|].
  intros otm. now apply posts_ret.
Qed.

Lemma posts_buildLogsPayload exp entities :
  posts no_post (buildLogsPayload exp entities).
Proof.
  apply posts_for_range. intros e s.
  destruct (length (Entity.Logs e) =? 0)%nat; [now apply posts_ret|].
  apply posts_bind; [done|apply posts_toKeyValueList|intros attrs].
  apply posts_bind; [done|apply posts_addRelationships|intros r].
  apply posts_bind; [done| |intros lr; now apply posts_ret].
  apply posts_for_range. intros l acc.
  apply posts_bind; [done|apply posts_createOtelLog|].
  intros otl. now apply posts_ret.
Qed.

Lemma posts_buildSpansPayload exp entities :
  posts no_post (buildSpansPayload exp entities).
Proof.
  apply posts_for_range. intros e s.
  destruct (length (Entity.Spans e) =? 0)%nat; [now apply posts_ret|].
  apply posts_bind; [done|apply posts_toKeyValueList|intros attrs].
  apply posts_bind; [done| |intros sl; now apply posts_ret].
  apply posts_for_range. intros sp acc.
  apply posts_bind; [done|apply posts_createOtelSpan|].
  intros ots. now apply posts_ret.
Qed.

Lemma posts_dumpPayload m format : posts no_post (dumpPayload m format).
Proof.
  intros w r w' Hrun. rewrite dumpPayload_run in Hrun.
  destruct (dump_text m format); injection Hrun as <- <-;
    eexists; (split; [reflexivity|reflexivity]).
Qed.

Lemma posts_hintAboutPermissions err :
  posts no_post (hintAboutPermissions err).
Proof.
  intros w r w' Hrun.
  destruct (hintAboutPermissions_run err w) as (es & Hh & Hw & _).
  rewrite Hh in Hrun. injection Hrun as <- <-.
  exists es. split; [reflexivity|]. now apply filter_warnings.
Qed.

Lemma posts_exportHTTP exp path m :
  posts (at_most_one_post ("data/v1/" +:+ path)) (exportHTTP exp path m).
Proof.
  unfold exportHTTP. destruct (proto_Marshal m) as [data|err].
  2:{ apply posts_ret. now left. }
  apply posts_bind; [now left| |intros _].
  { destruct (DumpFunc exp); [apply posts_dumpPayload|now apply posts_ret]. }
  destruct (negb (DryRun exp)); [|apply posts_ret; now left].
  apply posts_bind_rest.
  { intros w r w' [= <- <-]. exists [Posted ("data/v1/" +:+ path) data].
    split; [reflexivity|]. right. eauto. }
  intros _. destruct (api_HTTPPost _ _ _) as [[err|] options].
  - apply posts_bind; [done|apply posts_hintAboutPermissions|].
    intros _. now apply posts_ret.
  - apply posts_bind; [done| |intros tr].
    + destruct (api.ResponseHeaders options !! "Traceresponse")
        as [[|tr trs]|].
      * intros w r w' [= <- <-]. exists []. now rewrite app_nil_r.
      * now apply posts_ret.
      * now apply posts_ret.
    + apply posts_log_line. now apply posts_ret.
Qed.

(** X15: whatever its outcome (a return, a panic or the exit of the process),
    an export calls the HTTP collaborator at most once, and only at the
    endpoint of its kind: [data/v1/metrics], [data/v1/logs] for logs and
    events, [data/v1/trace]. *)
Theorem one_post_per_export (exp : Exporter) (entities : list Entity.t) :
  posts (at_most_one_post "data/v1/metrics") (ExportMetrics exp entities)
  ∧ posts (at_most_one_post "data/v1/logs") (ExportLogs exp entities)
  ∧ posts (at_most_one_post "data/v1/logs") (ExportEvents exp entities)
  ∧ posts (at_most_one_post "data/v1/trace") (ExportSpans exp entities).
Proof.
  assert (Hlogs :
    posts (at_most_one_post "data/v1/logs") (ExportLogs exp entities)).
  { unfold ExportLogs.
    apply posts_bind; [now left|apply posts_buildLogsPayload|intros elsr].
    destruct (colllogs.ResourceLogs elsr).
    - apply posts_bind; [now left| |intros _; apply posts_exportHTTP].
      eapply (posts_logged (Ok tt) [_]); [intros w; apply emit_run|].
      now constructor.
    - apply posts_weaken; [now left|].
      apply posts_log_line. now apply posts_ret. }
  split; [|split; [exact Hlogs|split; [exact Hlogs|]]].
  - unfold ExportMetrics.
    apply posts_bind; [now left|apply posts_buildMetricsPayload|intros emsr].
    destruct (collmetrics.ResourceMetrics emsr).
    + apply posts_bind; [now left| |intros _; apply posts_exportHTTP].
      eapply (posts_logged (Ok tt) [_]); [intros w; apply emit_run|].
      now constructor.
    + apply posts_weaken; [now left|].
      apply posts_log_line. now apply posts_ret.
  - unfold ExportSpans.
    apply posts_bind; [now left|apply posts_buildSpansPayload|intros essr].
    destruct (collspans.ResourceSpans essr).
    + apply posts_bind; [now left| |intros _; apply posts_exportHTTP].
      eapply (posts_logged (Ok tt) [_]); [intros w; apply emit_run|].
      now constructor.
    + apply posts_weaken; [now left|].
      apply posts_log_line. now apply posts_ret.
Qed.

End exporter.

(** ** The results on concrete inputs *)

(** C6, against the code: on a dry run with a dump function and the JSON
    format, a payload that protobuf marshals and JSON rejects ends the
    process in [log.Fatalf]: the call does not return success and the dump
    function is not called.  The same happens in [ExportMetrics] on the
    entity that the payload comes from. *)
Lemma dry_run_dump_failure :
  ¬ dry_run_as_stated (env := json_rejecting)
      dry_run_json pathMetrics nan_request empty_world
  ∧ ExportMetrics (rng := canonical_range) (env := json_rejecting)
      dry_run_json [entity_with [nan_metric] [] []] empty_world
    = (Exit 1,
       {| heap := ∅;
          trace :=
            [Logged DebugLevel "METRICS: " [];
             Logged FatalLevel
               "Unable to marshal MELT data to json format: json: unsupported value: NaN"
               []] |}).
Proof.
  split.
  - intros Hclaim.
    destruct (Hclaim eq_refl eq_refl (ex_intro _ "wire" eq_refl))
      as (_ & Hreturn & _).
    vm_compute in Hreturn. discriminate Hreturn.
  - vm_compute. reflexivity.
Qed.

(** The event of the second scenario of the specification, on the
    mapping [{user: "r"}]. *)
Lemma event_tagging_witness :
  ∃ otl w',
    createOtelLog (rng := canonical_range) (env := accepting)
      {| DumpFunc := false; DumpFormat := ""; DryRun := false |}
      (login_event (Some 1%positive)) login_world = (Ok otl, w')
    ∧ common.Build_KeyValue keyAppdIsEvent (common.AnyValue_StringValue "true")
      ∈ logs.Attributes otl
    ∧ common.Build_KeyValue keyAppdEventType
        (common.AnyValue_StringValue "user.login")
      ∈ logs.Attributes otl.
Proof.
  destruct (event_tagging (rng := canonical_range) (env := accepting)
              {| DumpFunc := false; DumpFormat := ""; DryRun := false |}
              (login_event (Some 1%positive)) login_world)
    as (otl & w' & Hrun & Hiff & _).
  - intros _. discriminate.
  - exists otl, w'. split; [exact Hrun|].
    apply Hiff. left. reflexivity.
Defined.

(** An entity that has a log and no metric. *)
Lemma nothing_to_send_witness :
  ExportMetrics (rng := canonical_range) (env := accepting)
    {| DumpFunc := false; DumpFormat := ""; DryRun := false |}
    [entity_with [] [login_event None] []] empty_world
  = (Ok None,
     {| heap := ∅; trace := [Logged InfoLevel "No metrics to send" []] |}).
Proof.
  apply (proj1 (nothing_to_send (rng := canonical_range) (env := accepting)
                  {| DumpFunc := false; DumpFormat := ""; DryRun := false |}
                  [entity_with [] [login_event None] []] empty_world)).
  repeat constructor.
Defined.

(** A dry run with the JSON dump, on encoders that accept the payload. *)
Lemma dry_run_purity_witness :
  ∃ r w',
    exportHTTP (env := accepting) dry_run_json pathMetrics nan_request
      empty_world = (r, w')
    ∧ r = Ok None ∧ trace w' = [Dumped ("{}" +:+ newline)].
Proof.
  destruct (dry_run_purity (env := accepting) dry_run_json pathMetrics
              nan_request empty_world eq_refl)
    as (r & w' & Hrun & _ & Hr & Hw & _).
  exists r, w'. split; [exact Hrun|]. split; [exact Hr|].
  rewrite Hw. reflexivity.
Defined.

(** The logs payload of one entity with one event. *)
Lemma scope_is_constant_witness :
  ∃ elsr w',
    buildLogsPayload (rng := canonical_range) (env := accepting)
      {| DumpFunc := false; DumpFormat := ""; DryRun := false |}
      [entity_with [] [login_event (Some 1%positive)] []] login_world
    = (Ok elsr, w')
    ∧ Forall one_scope_logs (default [] (colllogs.ResourceLogs elsr)).
Proof.
  eexists _, _. split; [vm_compute; reflexivity|].
  eapply (proj1 (proj2 (proj2 (scope_is_constant (rng := canonical_range)
            (env := accepting)
            {| DumpFunc := false; DumpFormat := ""; DryRun := false |}
            [entity_with [] [login_event (Some 1%positive)] []]
            login_world)))).
  vm_compute. reflexivity.
Defined.

(** The sum of the first scenario of the specification: 7.0 as 7. *)
Lemma number_value_follows_Type_witness :
  ∃ otm w',
    createOtelMetric (rng := canonical_range) (env := accepting)
      {| DumpFunc := false; DumpFormat := ""; DryRun := false |}
      reqs_metric empty_world = (Ok (Some otm), w')
    ∧ emitted_data_points otm
      = [{| metrics.StartTimeUnixNano := 1;
            metrics.TimeUnixNano := 2;
            metrics.Attributes := [];
            metrics.Value := Some (metrics.NumberDataPoint_AsInt 7) |}].
Proof.
  destruct (number_value_follows_Type (rng := canonical_range)
              (env := accepting)
              {| DumpFunc := false; DumpFormat := ""; DryRun := false |}
              reqs_metric empty_world eq_refl)
    as (otm & w' & Hrun & Hlong & _).
  exists otm, w'. split; [exact Hrun|].
  rewrite (Hlong eq_refl). vm_compute. reflexivity.
Defined.

(** A gauge of Type "int". *)
Lemma data_point_without_value_witness :
  ∃ otm w',
    createOtelMetric (rng := canonical_range) (env := accepting)
      {| DumpFunc := false; DumpFormat := ""; DryRun := false |}
      untyped_metric empty_world = (Ok (Some otm), w')
    ∧ emitted_data_points otm
      = [{| metrics.StartTimeUnixNano := 5;
            metrics.TimeUnixNano := 6;
            metrics.Attributes := [];
            metrics.Value := None |}].
Proof.
  destruct (data_point_without_value (rng := canonical_range)
              (env := accepting)
              {| DumpFunc := false; DumpFormat := ""; DryRun := false |}
              untyped_metric empty_world eq_refl)
    as (otm & w' & Hrun & Hpoints & _); [discriminate | discriminate |].
  exists otm, w'. split; [exact Hrun|].
  rewrite Hpoints. vm_compute. reflexivity.
Defined.

(** ** Further results on the iteration order and on concrete inputs *)

(** X3: the order in which the runtime visits a mapping changes the order of
    the attributes and of the warnings and nothing else: under two orders
    the coercer returns permutations of the same attributes and logs
    permutations of the same warnings. *)
Theorem coercer_order_is_immaterial (r1 r2 : MapRange) (env : Collaborators)
    (a : mapref) (w : World) :
  ∃ l1 w1 l2 w2,
    toKeyValueList (rng := r1) a w = (Ok l1, w1)
    ∧ toKeyValueList (rng := r2) a w = (Ok l2, w2)
    ∧ l1 ≡ₚ l2
    ∧ new_events w w1 ≡ₚ new_events w w2.
Proof.
  rewrite !toKeyValueList_run. eexists _, _, _, _.
  split; [reflexivity|]. split; [reflexivity|].
  unfold new_events. rewrite !new_events_add_events.
  unfold attributes_of, warnings_of.
  assert (Hperm : @range_entries r1 (deref (heap w) a)
                  ≡ₚ @range_entries r2 (deref (heap w) a)).
  { now rewrite !range_entries_perm. }
  split; now rewrite Hperm.
Qed.

Lemma unsigned_attribute_reinterpreted_witness :
  ∃ attribs w',
    toKeyValueList (rng := canonical_range) (env := accepting)
      (Some 1%positive) max_uint_world = (Ok attribs, w')
    ∧ common.Build_KeyValue "n" (common.AnyValue_IntValue (-1)) ∈ attribs.
Proof.
  destruct (unsigned_attribute_reinterpreted (rng := canonical_range)
              (env := accepting) (Some 1%positive) max_uint_world
              "n" KUint64 (2 ^ 64 - 1))
    as (attribs & w' & v & Hrun & Hin & _ & _ & Hneg);
    [reflexivity | discriminate | discriminate | lia |].
  exists attribs, w'. split; [exact Hrun|].
  destruct Hneg as [-> _]; [lia|]. exact Hin.
Defined.

Lemma gauge_ignores_sum_fields_witness :
  createOtelMetric (rng := canonical_range) (env := accepting) sending
    (with_sum_fields load_metric "delta" true) empty_world
  = createOtelMetric (rng := canonical_range) (env := accepting) sending
      load_metric empty_world.
Proof. apply gauge_ignores_sum_fields. reflexivity. Defined.

Lemma logs_keep_order_witness :
  ∃ elsr w',
    buildLogsPayload (rng := canonical_range) (env := accepting) sending
      [entity_with [] [login_event (Some 1%positive);
                       plain_log None] []] login_world
    = (Ok elsr, w')
    ∧ Forall2
        (λ e rl, ∃ ill,
           logs.RL_ScopeLogs rl = [ill]
           ∧ Forall2 record_of (Entity.Logs e) (logs.LogRecords ill))
        [entity_with [] [login_event (Some 1%positive); plain_log None] []]
        (default [] (colllogs.ResourceLogs elsr)).
Proof.
  eexists _, _. split; [vm_compute; reflexivity|].
  eapply (logs_keep_order (rng := canonical_range) (env := accepting) sending
            [entity_with [] [login_event (Some 1%positive);
                             plain_log None] []] login_world).
  vm_compute. reflexivity.
Defined.

Lemma event_tags_replace_supplied_witness :
  ∃ otl w',
    createOtelLog (rng := canonical_range) (env := accepting) sending
      (login_event (Some 1%positive)) supplied_world = (Ok otl, w')
    ∧ (common.Build_KeyValue keyAppdIsEvent (common.AnyValue_BoolValue false)
       ∉ logs.Attributes otl)
    ∧ (common.Build_KeyValue "user" (common.AnyValue_StringValue "r")
       ∈ logs.Attributes otl).
Proof.
  destruct (event_tags_replace_supplied (rng := canonical_range)
              (env := accepting) sending (login_event (Some 1%positive))
              1%positive supplied_world eq_refl eq_refl)
    as (otl & w' & Hrun & Hisevent & _ & Hother).
  exists otl, w'. split; [exact Hrun|]. split.
  - intros Hin. apply Hisevent in Hin. discriminate Hin.
  - apply Hother; [discriminate|discriminate|].
    exists (GoString "r"). split; reflexivity.
Defined.

Lemma transport_error_is_returned_witness :
  ∃ w',
    exportHTTP (env := forbidding) sending pathMetrics nan_request empty_world
    = (Ok (Some (HttpStatusError 403 "forbidden")), w')
    ∧ length (List.filter is_warning (new_events empty_world w')) = 1%nat.
Proof.
  destruct (transport_error_is_returned (env := forbidding) sending
              pathMetrics nan_request empty_world "wire"
              (HttpStatusError 403 "forbidden") request_options
              eq_refl eq_refl)
    as (w' & Hrun & _ & _ & Hwarn); [discriminate|reflexivity|].
  exists w'. split; [exact Hrun|exact Hwarn].
Defined.

Lemma accepted_request_is_logged_witness :
  ∃ r w',
    exportHTTP (env := accepting) sending pathLogs nan_request empty_world
    = (r, w')
    ∧ List.filter is_Posted (new_events empty_world w')
      = [Posted "data/v1/logs" "wire"]
    ∧ r = Ok None.
Proof.
  destruct (accepted_request_is_logged (env := accepting) sending pathLogs
              nan_request empty_world "wire" request_options
              eq_refl eq_refl)
    as (r & w' & Hrun & Hpost & Hres); [discriminate|reflexivity|].
  exists r, w'. split; [exact Hrun|]. split; [exact Hpost|].
  exact (proj1 Hres).
Defined.

Lemma dump_outcome_witness :
  dumpPayload (env := accepting) nan_request "xml" empty_world
  = (Ok tt, {| heap := ∅; trace := [Dumped ""] |}).
Proof.
  apply (proj2 (dump_outcome (env := accepting) nan_request "xml"
                  empty_world)).
  vm_compute. intros Hin.
  repeat (apply elem_of_cons in Hin as [Hin|Hin]; [discriminate Hin|]).
  now apply elem_of_nil in Hin.
Defined.

(** ** The path of an extracted file *)

Lemma prefix_slash c s :
  String.prefix "/" (String c s) = String.prefix "/" (String c "").
Proof.
  cbn [String.prefix]. destruct (Ascii.ascii_dec _ c); [|reflexivity].
  now destruct s.
Qed.

Lemma Index_nat_cons c s :
  solution.Index_nat (String c s) "/"
  = if String.prefix "/" (String c "") then Some 0%nat
    else S <$> solution.Index_nat s "/".
Proof.
  change (solution.Index_nat (String c s) "/")
    with (if String.prefix "/" (String c s) then Some 0%nat
          else S <$> solution.Index_nat s "/").
  now rewrite prefix_slash.
Qed.

Lemma append_cons c s t : String c s +:+ t = String c (s +:+ t).
Proof. reflexivity. Qed.

Lemma append_empty t : "" +:+ t = t.
Proof. reflexivity. Qed.

Lemma Index_nat_after_name name rest :
  solution.Index_nat name "/" = None →
  solution.Index_nat (name +:+ "/" +:+ rest) "/" = Some (String.length name).
Proof.
  induction name as [|c name IH]; intros Hnone.
  { rewrite append_empty, append_cons. now rewrite Index_nat_cons. }
  rewrite Index_nat_cons in Hnone. rewrite append_cons, Index_nat_cons.
  destruct (String.prefix "/" (String c "")); [discriminate|].
  destruct (solution.Index_nat name "/") eqn:Hn; [discriminate|].
  now rewrite (IH eq_refl).
Qed.

Lemma Index_nat_bound s i :
  solution.Index_nat s "/" = Some i → (i < String.length s)%nat.
Proof.
  revert i. induction s as [|c s IH]; intros i; [discriminate|].
  rewrite Index_nat_cons.
  destruct (String.prefix "/" (String c "")).
  - intros [= <-]. cbn. lia.
  - destruct (solution.Index_nat s "/") as [j|]; [|discriminate].
    intros [= <-]. specialize (IH j eq_refl). cbn. lia.
Qed.

Lemma length_app_string s1 s2 :
  String.length (s1 +:+ s2) = (String.length s1 + String.length s2)%nat.
Proof.
  induction s1 as [|c s1 IH]; [reflexivity|].
  rewrite append_cons. cbn [String.length]. now rewrite IH.
Qed.

Lemma length_drop_bytes n s :
  (n <= String.length s)%nat →
  String.length (solution.drop_bytes n s) = (String.length s - n)%nat.
Proof.
  revert s. induction n as [|n IH]; intros s Hn; cbn; [lia|].
  destruct s as [|c s]; cbn in *; [lia|]. apply IH. lia.
Qed.

(** X16: the path of a file of the archive, [./<name>/<rest>] with no slash
    in [<name>], becomes [<rest>]: the folder of the solution is dropped
    and the folders below it are kept. *)
Theorem local_path_drops_the_solution_folder (name rest : string) :
  solution.Index_nat name "/" = None →
  solution.convertZipLocToLocalLoc ("./" +:+ name +:+ "/" +:+ rest) = Ok rest.
Proof.
  intros Hname. unfold solution.convertZipLocToLocalLoc, solution.slice_from.
  pose proof (Index_nat_after_name name rest Hname) as Hindex.
  assert (Hlen : String.length (name +:+ "/" +:+ rest)
                 = (String.length name + S (String.length rest))%nat).
  { now rewrite length_app_string. }
  assert (Hdrop : solution.drop_bytes (S (String.length name))
                    (name +:+ "/" +:+ rest) = rest).
  { clear. induction name as [|c name IH]; [reflexivity|exact IH]. }
  rewrite append_cons, append_empty in Hindex, Hlen, Hdrop.
  repeat rewrite append_cons. repeat rewrite append_empty.
  cbn [String.length]. rewrite Hlen.
  destruct (Z.leb_spec 0 2); [|lia].
  destruct (Z.leb_spec 2
              (Z.of_nat (S (S (String.length name
                               + S (String.length rest))))));
    [|lia].
  cbn [andb]. change (Z.to_nat 2) with 2%nat. cbn [solution.drop_bytes].
  unfold solution.strings_Index. rewrite Hindex.
  destruct (Z.leb_spec 0 (Z.of_nat (String.length name) + 3)); [|lia].
  destruct (Z.leb_spec (Z.of_nat (String.length name) + 3)
              (Z.of_nat (S (S (String.length name
                               + S (String.length rest))))));
    [|lia].
  cbn [andb]. f_equal.
  replace (Z.to_nat (Z.of_nat (String.length name) + 3))
    with (S (S (S (String.length name)))) by lia.
  cbn [solution.drop_bytes]. exact Hdrop.
Qed.

(** X17: the conversion panics exactly on a path shorter than two bytes.  On
    any other path it returns a suffix of the path, and when there is no
    slash after the first two bytes that suffix is the path without its
    first two bytes. *)
Theorem local_path_edges (zipLoc : string) :
  ((String.length zipLoc < 2)%nat →
   solution.convertZipLocToLocalLoc zipLoc = Panic "slice bounds out of range")
  ∧ ((2 <= String.length zipLoc)%nat →
     ∃ n,
       (2 <= n <= String.length zipLoc)%nat
       ∧ solution.convertZipLocToLocalLoc zipLoc
         = Ok (solution.drop_bytes n zipLoc)
       ∧ (solution.Index_nat (solution.drop_bytes 2 zipLoc) "/" = None →
          n = 2%nat)).
Proof.
  unfold solution.convertZipLocToLocalLoc, solution.slice_from. split.
  - intros Hshort.
    destruct (Z.leb_spec 2 (Z.of_nat (String.length zipLoc))); [lia|].
    reflexivity.
  - intros Hlong.
    destruct (Z.leb_spec 2 (Z.of_nat (String.length zipLoc))); [|lia].
    change (0 <=? 2) with true. cbn [andb].
    change (Z.to_nat 2) with 2%nat.
    unfold solution.strings_Index.
    destruct (solution.Index_nat (solution.drop_bytes 2 zipLoc) "/")
      as [i|] eqn:Hi.
    + apply Index_nat_bound in Hi.
      rewrite length_drop_bytes in Hi by lia.
      destruct (Z.leb_spec 0 (Z.of_nat i + 3)); [|lia].
      destruct (Z.leb_spec (Z.of_nat i + 3)
                  (Z.of_nat (String.length zipLoc))); [|lia].
      exists (Z.to_nat (Z.of_nat i + 3)). split; [lia|].
      split; [reflexivity|discriminate].
    + exists 2%nat. split; [lia|]. split; [|reflexivity].
      destruct (Z.leb_spec (-1 + 3) (Z.of_nat (String.length zipLoc)));
        [|lia].
      reflexivity.
Qed.

Lemma local_path_drops_the_solution_folder_witness :
  solution.convertZipLocToLocalLoc "./spacefleet/objects/ship.json"
  = Ok "objects/ship.json".
Proof.
  apply (local_path_drops_the_solution_folder "spacefleet"
           "objects/ship.json").
  reflexivity.
Defined.

Lemma local_path_edges_witness :
  solution.convertZipLocToLocalLoc "." = Panic "slice bounds out of range".
Proof.
  apply (proj1 (local_path_edges ".")). cbn. lia.
Defined.

(** ** The relationship encoder and the order of iteration *)

Lemma attributes_of_perm (r1 r2 : MapRange) h a :
  attributes_of (rng := r1) h a ≡ₚ attributes_of (rng := r2) h a.
Proof.
  unfold attributes_of.
  assert (Hperm : @range_entries r1 (deref h a)
                  ≡ₚ @range_entries r2 (deref h a)).
  { now rewrite !range_entries_perm. }
  now rewrite Hperm.
Qed.





(** ** Events, twice and through a shared mapping *)

(** X9: building the record of an event a second time changes nothing
    more: the heap stays as the first call left it, and the second
    record has the body, the time and the severity of the first and the
    same attributes, in an order that may differ with the order in which
    the mapping is visited. *)
Theorem event_built_twice (r1 r2 : MapRange) (env : Collaborators)
    (exp : Exporter) (l : Log.t) (w : World) :
  Log.IsEvent l = true → Log.Attributes l ≠ None →
  ∃ o1 w1 o2 w2,
    createOtelLog (rng := r1) exp l w = (Ok o1, w1)
    ∧ createOtelLog (rng := r2) exp l w1 = (Ok o2, w2)
    ∧ heap w2 = heap w1
    ∧ logs.Attributes o2 ≡ₚ logs.Attributes o1
    ∧ logs.Body o2 = logs.Body o1
    ∧ logs.TimeUnixNano o2 = logs.TimeUnixNano o1
    ∧ logs.SeverityText o2 = logs.SeverityText o1.
Proof.
  intros He Hn. destruct (Log.Attributes l) as [p|] eqn:Hp; [|done].
  rewrite (createOtelLog_event (rng := r1) exp l p w He Hp).
  eexists _, _, _, _. split; [reflexivity|].
  rewrite (createOtelLog_event (rng := r2) exp l p _ He Hp).
  cbn [heap add_events]. rewrite deref_insert, tagged_idempotent.
  rewrite insert_insert_eq. split; [reflexivity|]. split; [reflexivity|].
  cbn [log_record_of logs.Attributes logs.Body logs.TimeUnixNano
       logs.SeverityText].
  split; [apply attributes_of_perm|]. repeat split.
Qed.

(** X10: the tags of an event reach every later log that holds the same
    map: a log that is no event and shares the mapping of an event built
    before it gets the attributes of that event, in some order, the two
    tags included. *)
Theorem shared_mapping_carries_the_tags (r1 r2 : MapRange)
    (env : Collaborators) (exp : Exporter) (l1 l2 : Log.t) (p : positive)
    (w : World) :
  Log.IsEvent l1 = true → Log.IsEvent l2 = false →
  Log.Attributes l1 = Some p → Log.Attributes l2 = Some p →
  ∃ o1 w1 o2 w2,
    createOtelLog (rng := r1) exp l1 w = (Ok o1, w1)
    ∧ createOtelLog (rng := r2) exp l2 w1 = (Ok o2, w2)
    ∧ logs.Attributes o2 ≡ₚ logs.Attributes o1
    ∧ common.Build_KeyValue keyAppdIsEvent
        (common.AnyValue_StringValue "true") ∈ logs.Attributes o2
    ∧ common.Build_KeyValue keyAppdEventType
        (common.AnyValue_StringValue (Log.TypeName l1)) ∈ logs.Attributes o2.
Proof.
  intros He1 He2 Hp1 Hp2.
  rewrite (createOtelLog_event (rng := r1) exp l1 p w He1 Hp1).
  eexists _, _, _, _. split; [reflexivity|].
  rewrite (createOtelLog_plain (rng := r2) exp l2 _ He2).
  split; [reflexivity|].
  cbn [heap add_events logs.Attributes log_record_of]. rewrite Hp1, Hp2.
  split; [apply attributes_of_perm|].
  split; apply elem_of_attributes_of; rewrite deref_insert; unfold tagged.
  - exists (GoString "true"). split; [|reflexivity].
    rewrite lookup_insert_ne by discriminate. apply lookup_insert_eq.
  - exists (GoString (Log.TypeName l1)). split; [|reflexivity].
    apply lookup_insert_eq.
Qed.

(** The event of the second scenario, built in one order and then in the
    reverse order. *)
Lemma event_built_twice_witness :
  ∃ o1 w1 o2 w2,
    createOtelLog (rng := canonical_range) (env := accepting) sending
      (login_event (Some 1%positive)) login_world = (Ok o1, w1)
    ∧ createOtelLog (rng := reversed_range) (env := accepting) sending
        (login_event (Some 1%positive)) w1 = (Ok o2, w2)
    ∧ heap w2 = heap w1
    ∧ logs.Attributes o2 ≡ₚ logs.Attributes o1.
Proof.
  destruct (event_built_twice canonical_range reversed_range accepting
              sending (login_event (Some 1%positive)) login_world)
    as (o1 & w1 & o2 & w2 & H1 & H2 & Hheap & Hperm & _);
    [reflexivity|discriminate|].
  exists o1, w1, o2, w2. repeat split; assumption.
Defined.

Lemma shared_mapping_carries_the_tags_witness :
  ∃ o1 w1 o2 w2,
    createOtelLog (rng := canonical_range) (env := accepting) sending
      (login_event (Some 1%positive)) login_world = (Ok o1, w1)
    ∧ createOtelLog (rng := reversed_range) (env := accepting) sending
        (plain_log (Some 1%positive)) w1 = (Ok o2, w2)
    ∧ common.Build_KeyValue keyAppdEventType
        (common.AnyValue_StringValue "user.login") ∈ logs.Attributes o2.
Proof.
  destruct (shared_mapping_carries_the_tags canonical_range reversed_range
              accepting sending (login_event (Some 1%positive))
              (plain_log (Some 1%positive)) 1%positive login_world
              eq_refl eq_refl eq_refl eq_refl)
    as (o1 & w1 & o2 & w2 & H1 & H2 & _ & _ & Htype).
  exists o1, w1, o2, w2. split; [exact H1|]. split; [exact H2|exact Htype].
Defined.

(** ** Spans and empty requests on concrete inputs *)

Lemma span_keeps_order_witness :
  ∃ ots w',
    createOtelSpan (rng := canonical_range) (env := accepting) sending
      login_span login_world = (Ok ots, w')
    ∧ spans.Event_Name <$> spans.Events ots = ["e"; "f"]
    ∧ spans.Status_ ots ≠ None.
Proof.
  eexists _, _. split; [vm_compute; reflexivity|].
  destruct (span_keeps_order (rng := canonical_range) (env := accepting)
              sending login_span login_world _ _ eq_refl)
    as (_ & Hnames & _ & _ & _ & Hstatus).
  split; [exact Hnames|].
  intros Hnone. apply Hstatus in Hnone. discriminate Hnone.
Defined.

Lemma request_is_nil_when_nothing_to_send_witness :
  ∃ emsr w',
    buildMetricsPayload (rng := canonical_range) (env := accepting) sending
      [entity_with [] [login_event None] []; entity_with [load_metric] [] []]
      empty_world = (Ok emsr, w')
    ∧ heap w' = ∅
    ∧ collmetrics.ResourceMetrics emsr ≠ None.
Proof.
  eexists _, _. split; [vm_compute; reflexivity|].
  destruct (proj1 (request_is_nil_when_nothing_to_send
              (rng := canonical_range) (env := accepting) sending
              [entity_with [] [login_event None] [];
               entity_with [load_metric] [] []] empty_world) _ _ eq_refl)
    as [Hheap Hnil].
  split; [exact Hheap|].
  intros Hnone. apply Hnil in Hnone.
  apply Forall_cons in Hnone as [_ Hnone].
  apply Forall_cons in Hnone as [Hload _]. discriminate Hload.
Defined.
